(** * Correlation-penalized MLP: the penalty terms and the training loop of mlp.py

    The development embeds [MLP.set_covariance], [MLP.set_correlation] and
    [test_mlp] of [Correlation_Penalized_MLP/mlp.py].

    Numbers.  The tensors of the program hold IEEE floating-point numbers.
    They are modelled by [float]: an exact real, an infinity or a NaN.  The
    special values follow the IEEE rules ([1/0 = inf], [inf * 0 = nan],
    [inf - inf = nan], comparisons with a NaN are false); finite values are
    computed exactly, without rounding or overflow, and the zero of the model
    is the positive zero (the only zero the penalty code divides by).  What
    is stated over [float] is stated of the formulas of the program read over
    the reals, or is a statement that rounding does not touch (the special
    values, the control flow, the shapes).

    The lines of the two penalty methods are embedded a second time, in
    [B64], on the binary64 numbers the program computes with; there they are
    evaluated on concrete batches, and the values show where rounding makes
    the program differ from its formulas.

    Tensors.  A tensor is its shape together with its indexing function; the
    numpy operations used by the program are written index-wise.

    Black boxes.  The compiled Theano functions, the data set loader and the
    hidden layer live outside mlp.py; the training loop takes them as
    parameters. *)

From Stdlib Require Import Reals Lra ZArith List Lia Bool Permutation.
From Stdlib Require Floats.
Import ListNotations.

(** ** Floating-point values with exact finite arithmetic *)

Module Float.

Inductive float : Type :=
| Fin (x : R)
| Inf (neg : bool)
| NaN.

Definition Rneg (x : R) : bool := if Rlt_dec x 0 then true else false.

Definition Rzero (x : R) : bool := if Req_dec_T x 0 then true else false.

Definition fneg (a : float) : float :=
  match a with
  | Fin x => Fin (- x)
  | Inf s => Inf (negb s)
  | NaN => NaN
  end.

Definition fadd (a b : float) : float :=
  match a, b with
  | Fin x, Fin y => Fin (x + y)
  | Fin _, Inf s => Inf s
  | Inf s, Fin _ => Inf s
  | Inf s, Inf t => if Bool.eqb s t then Inf s else NaN
  | _, _ => NaN
  end.

Definition fsub (a b : float) : float := fadd a (fneg b).

Definition fmul (a b : float) : float :=
  match a, b with
  | Fin x, Fin y => Fin (x * y)
  | Fin x, Inf s => if Rzero x then NaN else Inf (xorb (Rneg x) s)
  | Inf s, Fin y => if Rzero y then NaN else Inf (xorb s (Rneg y))
  | Inf s, Inf t => Inf (xorb s t)
  | _, _ => NaN
  end.

Definition fdiv (a b : float) : float :=
  match a, b with
  | Fin x, Fin y =>
      if Rzero y then (if Rzero x then NaN else Inf (Rneg x))
      else Fin (x / y)
  | Fin _, Inf _ => Fin 0
  | Inf s, Fin y => Inf (xorb s (Rneg y))
  | _, _ => NaN
  end.

(** [x ** 2] *)
Definition fsqr (a : float) : float := fmul a a.

(** [x ** (-0.5)]: [pow] with the exponent of [inv_std_vec]. *)
Definition fpow_neg_half (a : float) : float :=
  match a with
  | Fin x =>
      if Rzero x then Inf false
      else if Rneg x then NaN
      else Fin (Rpower x (-0.5))
  | Inf _ => Fin 0
  | NaN => NaN
  end.

(** [a < b] on floats *)
Definition flt (a b : float) : bool :=
  match a, b with
  | Fin x, Fin y => if Rlt_dec x y then true else false
  | Fin _, Inf s => negb s
  | Inf s, Fin _ => s
  | Inf s, Inf t => s && negb t
  | _, _ => false
  end.

(** The sum of [f 0], ..., [f (n-1)], accumulated from 0 in index order. *)
Fixpoint fsum (n : nat) (f : nat -> float) : float :=
  match n with
  | O => Fin 0
  | S k => fadd (fsum k f) (f k)
  end.

(** The float of a Python integer. *)
Definition of_int (z : Z) : float := Fin (IZR z).

End Float.
Import Float.

(** ** Tensors and the numpy operations of the penalty code *)

Record vector : Type := mkvec { vlen : nat; vget : nat -> float }.

Record matrix : Type :=
  mkmat { nrows : nat; ncols : nat; entry : nat -> nat -> float }.

(** [M.shape[0]] *)
Definition shape0 (M : matrix) : Z := Z.of_nat (nrows M).

(** [M.mean(0)]: the mean of every column. *)
Definition mean0 (M : matrix) : vector :=
  mkvec (ncols M)
        (fun j => fdiv (fsum (nrows M) (fun i => entry M i j))
                       (of_int (shape0 M))).

(** [M.sum(0)]: the sum of every column. *)
Definition sum0 (M : matrix) : vector :=
  mkvec (ncols M) (fun j => fsum (nrows M) (fun i => entry M i j)).

(** [M - v], the vector broadcast over the rows. *)
Definition msub_row (M : matrix) (v : vector) : matrix :=
  mkmat (nrows M) (ncols M) (fun i j => fsub (entry M i j) (vget v j)).

(** [v * M], the vector broadcast over the rows. *)
Definition row_mul (v : vector) (M : matrix) : matrix :=
  mkmat (nrows M) (ncols M) (fun i j => fmul (vget v j) (entry M i j)).

(** [M * v], the vector broadcast over the rows. *)
Definition mul_row (M : matrix) (v : vector) : matrix :=
  mkmat (nrows M) (ncols M) (fun i j => fmul (entry M i j) (vget v j)).

(** [M.T] *)
Definition transpose (M : matrix) : matrix :=
  mkmat (ncols M) (nrows M) (fun i j => entry M j i).

(** [A.dot(B)] *)
Definition dot (A B : matrix) : matrix :=
  mkmat (nrows A) (ncols B)
        (fun i j => fsum (ncols A) (fun k => fmul (entry A i k) (entry B k j))).

(** [c * M] for a scalar [c] *)
Definition scale (c : float) (M : matrix) : matrix :=
  mkmat (nrows M) (ncols M) (fun i j => fmul c (entry M i j)).

(** [c * v] for a scalar [c] *)
Definition vscale (c : float) (v : vector) : vector :=
  mkvec (vlen v) (fun j => fmul c (vget v j)).

(** [M ** 2], element-wise *)
Definition msqr (M : matrix) : matrix :=
  mkmat (nrows M) (ncols M) (fun i j => fsqr (entry M i j)).

(** [v ** (-0.5)], element-wise *)
Definition vpow_neg_half (v : vector) : vector :=
  mkvec (vlen v) (fun j => fpow_neg_half (vget v j)).

(** [M.sum()] *)
Definition msum (M : matrix) : float :=
  fsum (nrows M) (fun i => fsum (ncols M) (fun j => entry M i j)).

(** [M.diagonal()] *)
Definition diagonal (M : matrix) : vector :=
  mkvec (Nat.min (nrows M) (ncols M)) (fun i => entry M i i).

(** [v.sum()] *)
Definition vsum (v : vector) : float := fsum (vlen v) (vget v).

(** ** The attributes of an [MLP] object that the penalty methods use

    [hiddenLayer_output] is [self.hiddenLayer.output]; every other attribute
    is absent ([None]) until a method sets it. *)

Record MLP : Type := mkMLP {
  hiddenLayer_output : matrix;
  minibatch_size : option Z;
  mean_activation : option vector;
  centered_activation : option matrix;
  activation_covariance : option matrix;
  covariance_squared : option matrix;
  off_diag_cov_sqr : option float;
  inv_std_vec : option vector;
  activation_correlation : option matrix;
  correlation_squared : option matrix;
  off_diag_cor_sqr : option float
}.

(** The object as [__init__] leaves it, as far as the penalty methods go. *)
Definition new_MLP (output : matrix) : MLP :=
  mkMLP output None None None None None None None None None None.

(** [1.0/(self.minibatch_size-1)] *)
Definition inv_dof (size : Z) : float := fdiv (Fin 1) (of_int (size - 1)).

(** [MLP.set_covariance] *)
Definition set_covariance (self : MLP) : MLP :=
  let size := shape0 (hiddenLayer_output self) in
  let mean := mean0 (hiddenLayer_output self) in
  let centered := msub_row (hiddenLayer_output self) mean in
  let cov := scale (inv_dof size) (dot (transpose centered) centered) in
  let cov_sq := msqr cov in
  let off := fsub (msum cov_sq) (vsum (diagonal cov_sq)) in
  mkMLP (hiddenLayer_output self)
        (Some size) (Some mean) (Some centered) (Some cov)
        (Some cov_sq) (Some off)
        (inv_std_vec self) (activation_correlation self)
        (correlation_squared self) (off_diag_cor_sqr self).

(** [MLP.set_correlation] *)
Definition set_correlation (self : MLP) : MLP :=
  let size := shape0 (hiddenLayer_output self) in
  let mean := mean0 (hiddenLayer_output self) in
  let centered := msub_row (hiddenLayer_output self) mean in
  let cov := scale (inv_dof size) (dot (transpose centered) centered) in
  let inv_std := vpow_neg_half (vscale (inv_dof size) (sum0 (msqr centered))) in
  let cor := mul_row (transpose (row_mul inv_std cov)) inv_std in
  let cor_sq := msqr cor in
  let off := fsub (msum cor_sq) (vsum (diagonal cor_sq)) in
  mkMLP (hiddenLayer_output self)
        (Some size) (Some mean) (Some centered) (Some cov)
        (covariance_squared self) (off_diag_cov_sqr self)
        (Some inv_std) (Some cor) (Some cor_sq) (Some off).

(** ** The configuration and the cost expression of [test_mlp] *)

Record config : Type := mkconfig {
  learning_rate : float;
  L1_reg : float;
  L2_reg : float;
  cov_reg : float;
  cor_reg : float;
  rand_seed : Z;
  n_epochs : Z;
  batch_size : Z;
  n_hidden : Z
}.

(** [w == 0] and [w != 0] on a float *)
Definition eq0 (w : float) : bool :=
  match w with Fin x => Rzero x | _ => false end.

Definition ne0 (w : float) : bool := negb (eq0 w).

(** The symbolic scalars a cost is assembled from. *)
Inductive quantity : Type :=
| NegLogLikelihood
| L1
| L2_sqr
| OffDiagCovSqr
| OffDiagCorSqr.

(** A summand of the cost: a quantity, or a weight times a quantity. *)
Inductive term : Type :=
| Plain (q : quantity)
| Weighted (w : float) (q : quantity).

Definition cost_expr : Type := list term.

Definition term_quantity (t : term) : quantity :=
  match t with Plain q => q | Weighted _ q => q end.

Definition is_penalty (t : term) : bool :=
  match term_quantity t with
  | OffDiagCovSqr | OffDiagCorSqr => true
  | _ => false
  end.

(** The decorrelation penalties among the summands of a cost. *)
Definition penalties (c : cost_expr) : list term := filter is_penalty c.

(** The value of a cost, summed left to right as Python's [+] associates. *)
Definition term_value (env : quantity -> float) (t : term) : float :=
  match t with
  | Plain q => env q
  | Weighted w q => fmul w (env q)
  end.

Definition cost_value (env : quantity -> float) (c : cost_expr) : float :=
  match c with
  | [] => Fin 0
  | t :: ts => fold_left (fun acc u => fadd acc (term_value env u)) ts
                         (term_value env t)
  end.

(** What the regularisation branch of [test_mlp] does: the penalty method it
    calls on the classifier and the cost it assembles, or [sys.exit(1)]. *)
Inductive penalty_call : Type := CallSetCovariance | CallSetCorrelation.

Inductive selection : Type :=
| Cost (calls : list penalty_call) (cost : cost_expr)
| SysExit (status : Z).

Definition base_cost (cfg : config) : cost_expr :=
  [Plain NegLogLikelihood; Weighted (L1_reg cfg) L1;
   Weighted (L2_reg cfg) L2_sqr].

Definition select_cost (cfg : config) : selection :=
  if eq0 (cov_reg cfg) && eq0 (cor_reg cfg) then
    Cost [] (base_cost cfg)
  else if ne0 (cov_reg cfg) && eq0 (cor_reg cfg) then
    Cost [CallSetCovariance]
         (base_cost cfg ++ [Weighted (cov_reg cfg) OffDiagCovSqr])
  else if eq0 (cov_reg cfg) && ne0 (cor_reg cfg) then
    Cost [CallSetCorrelation]
         (base_cost cfg ++ [Weighted (cor_reg cfg) OffDiagCorSqr])
  else SysExit 1.

(** ** Python integers, ranges and slices *)

(** [a / b] on Python 2 integers: floor division, an error when [b] is 0. *)
Definition int_div (a b : Z) : option Z :=
  if Z.eqb b 0 then None else Some (Z.div a b).

(** [xrange(n)] *)
Definition xrange (n : Z) : list Z := map Z.of_nat (seq 0 (Z.to_nat n)).

(** [l[lo:hi]] for bounds that are not negative (the loops of [test_mlp]
    index with [i * batch_size] for [i >= 0] and [batch_size > 0]). *)
Definition slice {A : Type} (l : list A) (lo hi : Z) : list A :=
  firstn (Z.to_nat (hi - lo)) (skipn (Z.to_nat lo) l).

(** [l[i] = v]; Python raises outside the list, which the shuffle below
    never reaches, and the model leaves the list as it is there. *)
Fixpoint upd {A : Type} (l : list A) (i : nat) (v : A) : list A :=
  match l, i with
  | [], _ => []
  | _ :: t, O => v :: t
  | h :: t, S k => h :: upd t k v
  end.

(** [x[i], x[j] = x[j], x[i]] *)
Definition swap (x : list nat) (i j : nat) : list nat :=
  let xi := nth i x O in
  let xj := nth j x O in
  upd (upd x i xj) j xi.

(** A flattened tensor of parameters, and the update
    [param - learning_rate * gparam]. *)
Definition param : Type := list float.

Definition sgd (lr : float) (p g : param) : param :=
  map (fun pg => fsub (fst pg) (fmul lr (snd pg))) (combine p g).

(** [np.mean(losses)] *)
Definition np_mean (losses : list float) : float :=
  fdiv (fold_left fadd losses (Fin 0)) (of_int (Z.of_nat (length losses))).

(** ** The random generator

    [numpy.random.RandomState] is not part of mlp.py.  Its state is a type
    [Rng], and [rk_interval i], the draw of a number in [0 .. i], returns the
    number and the next state. *)

Section Generator.

Variable Rng : Type.
Variable rk_interval : nat -> Rng -> nat * Rng.

(** Modelled from the spec: the in-place shuffle behind [rng.permutation],
    which is numpy's and not in mlp.py,
    [while i > 0: j = rk_interval(i); x[i], x[j] = x[j], x[i]; i = i - 1]. *)
Fixpoint shuffle (i : nat) (x : list nat) (s : Rng) : list nat * Rng :=
  match i with
  | O => (x, s)
  | S k => let (j, s') := rk_interval i s in shuffle k (swap x i j) s'
  end.

(** Modelled from the spec: [rng.permutation(n)], which the spec asks for a
    freshly shuffled sequence of the indices [0 .. n-1]; numpy shuffles
    [arange(n)] from the last position down. *)
Definition permutation (n : nat) (s : Rng) : list nat * Rng :=
  shuffle (n - 1) (seq 0 n) s.

End Generator.

(** ** The training loop of [test_mlp] *)

(** What one epoch did: the permutation it drew, the rows of the training
    set in every minibatch it trained on, the rows of the validation set in
    every batch it evaluated, the parameters it ended with and the validation
    error it reported. *)
Record epoch_record : Type := mkepoch {
  e_epoch : Z;
  e_index_perm : list nat;
  e_train_rows : list (list nat);
  e_valid_rows : list (list nat);
  e_params : list param;
  e_validation_loss : float
}.

(** The variables of the [while] loop, with the record of the epochs run. *)
Record loop_state (Rng : Type) : Type := mkstate {
  epoch : Z;
  rng : Rng;
  params : list param;
  best_validation_loss : float;
  best_epoch : Z;
  history : list epoch_record
}.

Arguments mkstate {Rng}.
Arguments epoch {Rng}.
Arguments rng {Rng}.
Arguments params {Rng}.
Arguments best_validation_loss {Rng}.
Arguments best_epoch {Rng}.
Arguments history {Rng}.

Inductive message : Type :=
| MsgBuilding
| MsgCannotUseBoth
| MsgTraining
| MsgComplete (best_pct : float) (at_epoch : Z) (iteration : Z)
| MsgRanFor (minutes : float).

(** The effects of [test_mlp], in program order. *)
Inductive event : Type :=
| EvLoadData
| EvPrint (m : message)
| EvRandomState (seed : Z)
| EvBuildModel
| EvPenalty (c : penalty_call)
| EvCompileValidate
| EvGradients
| EvCompileTrain
| EvTimer (reading : float)
| EvEpoch (r : epoch_record).

Inductive outcome (Rng : Type) : Type :=
| ZeroDivisionError
| Exit (status : Z)
| Return (final : loop_state Rng).

Arguments ZeroDivisionError {Rng}.
Arguments Exit {Rng}.
Arguments Return {Rng}.

Section Training.

(** The generator, see above. *)
Variable Rng : Type.
Variable RandomState : Z -> Rng.
Variable rk_interval : nat -> Rng -> nat * Rng.

(** [load_data(dataset)]: the sizes of the training and validation sets. *)
Variable n_train : nat.
Variable n_valid : nat.

(** [MLP(rng, ...)]: the initial parameters, drawn from the generator. *)
Variable init_params : Z -> Rng -> list param * Rng.

(** [T.grad(cost, param)] for the [k]-th parameter, on the minibatch made of
    the given rows of the training set, at the given parameter values. *)
Variable grad : cost_expr -> list nat -> list param -> nat -> param.

(** [classifier.errors(y)] on the given rows of the validation set. *)
Variable errors : list nat -> list param -> float.

(** [timeit.default_timer()]: the [k]-th reading of the clock. *)
Variable default_timer : nat -> float.

(** [train_model(minibatch_index, index_perm)]: the updates of the compiled
    function, on rows [perm[index * batch_size : (index + 1) * batch_size]]. *)
Definition train_rows (bs : Z) (perm : list nat) (index : Z) : list nat :=
  slice perm (index * bs) ((index + 1) * bs).

Definition train_model (cost : cost_expr) (lr : float) (rows : list nat)
    (ps : list param) : list param :=
  let gparams := map (grad cost rows ps) (seq 0 (length ps)) in
  map (fun pg => sgd lr (fst pg) (snd pg)) (combine ps gparams).

(** [validate_model(i)]: rows [i * batch_size : (i + 1) * batch_size]. *)
Definition valid_rows (bs : Z) (index : Z) : list nat :=
  slice (seq 0 n_valid) (index * bs) ((index + 1) * bs).

(** What is fixed before the loop starts. *)
Record setup : Type := mksetup {
  s_cost : cost_expr;
  s_learning_rate : float;
  s_batch_size : Z;
  s_n_epochs : Z;
  n_train_batches : Z;
  n_valid_batches : Z
}.

(** The body of [while epoch < n_epochs], up to the validation error of the
    epoch: the permutation drawn, the minibatches trained on in order, the
    validation batches evaluated in order and the mean of their errors. *)
Definition train_epoch (su : setup) (st : loop_state Rng)
    : epoch_record * Rng :=
  let epoch' := (epoch st + 1)%Z in
  let (index_perm, rng') := permutation Rng rk_interval n_train (rng st) in
  let batches :=
    map (train_rows (s_batch_size su) index_perm)
        (xrange (n_train_batches su)) in
  let params' :=
    fold_left (fun ps rows =>
                 train_model (s_cost su) (s_learning_rate su) rows ps)
              batches (params st) in
  let vbatches := map (valid_rows (s_batch_size su))
                      (xrange (n_valid_batches su)) in
  let validation_losses := map (fun rows => errors rows params') vbatches in
  let this_validation_loss := np_mean validation_losses in
  (mkepoch epoch' index_perm batches vbatches params' this_validation_loss,
   rng').

(** The whole body: the epoch, then
    [if this_validation_loss < best_validation_loss: ...]. *)
Definition one_epoch (su : setup) (st : loop_state Rng) : loop_state Rng :=
  let (r, rng') := train_epoch su st in
  if flt (e_validation_loss r) (best_validation_loss st) then
    mkstate (e_epoch r) rng' (e_params r) (e_validation_loss r) (e_epoch r)
            (history st ++ [r])
  else
    mkstate (e_epoch r) rng' (e_params r) (best_validation_loss st)
            (best_epoch st) (history st ++ [r]).

(** [k] iterations of the loop body. *)
Fixpoint run_epochs (su : setup) (k : nat) (st : loop_state Rng)
    : loop_state Rng :=
  match k with
  | O => st
  | S k' => run_epochs su k' (one_epoch su st)
  end.

(** [while epoch < n_epochs: ...]: the loop runs [n_epochs - epoch] times. *)
Definition while_loop (su : setup) (st : loop_state Rng) : loop_state Rng :=
  run_epochs su (Z.to_nat (s_n_epochs su - epoch st)) st.

(** [test_mlp]: the effects in program order and how the call ends. *)
Definition test_mlp (cfg : config) : list event * outcome Rng :=
  match int_div (Z.of_nat n_train) (batch_size cfg),
        int_div (Z.of_nat n_valid) (batch_size cfg) with
  | Some ntb, Some nvb =>
      let rng0 := RandomState (rand_seed cfg) in
      let (params0, rng1) := init_params (n_hidden cfg) rng0 in
      let built := [EvLoadData; EvPrint MsgBuilding;
                    EvRandomState (rand_seed cfg); EvBuildModel] in
      match select_cost cfg with
      | SysExit status => (built ++ [EvPrint MsgCannotUseBoth], Exit status)
      | Cost calls cost =>
          let su := mksetup cost (learning_rate cfg) (batch_size cfg)
                            (n_epochs cfg) ntb nvb in
          let start_time := default_timer 0 in
          let st0 := mkstate 0%Z rng1 params0 (Inf false) 0%Z [] in
          let final := while_loop su st0 in
          let end_time := default_timer 1 in
          (built ++ map EvPenalty calls
             ++ [EvCompileValidate; EvGradients; EvCompileTrain;
                 EvPrint MsgTraining; EvTimer start_time]
             ++ map EvEpoch (history final)
             ++ [EvTimer end_time;
                 EvPrint (MsgComplete
                            (fmul (best_validation_loss final) (Fin 100))
                            (best_epoch final)
                            (best_epoch final * ntb)%Z);
                 EvPrint (MsgRanFor
                            (fdiv (fsub end_time start_time) (Fin 60)))],
           Return final)
      end
  | _, _ => ([EvLoadData], ZeroDivisionError)
  end.

(** The loop variables when the loop is entered, and what is fixed then. *)
Definition initial_state (cfg : config) : loop_state Rng :=
  let (params0, rng1) := init_params (n_hidden cfg)
                                     (RandomState (rand_seed cfg)) in
  mkstate 0%Z rng1 params0 (Inf false) 0%Z [].

Definition setup_of (cfg : config) (cost : cost_expr) : setup :=
  mksetup cost (learning_rate cfg) (batch_size cfg) (n_epochs cfg)
          (Z.of_nat n_train / batch_size cfg)
          (Z.of_nat n_valid / batch_size cfg).

End Training.

(** ** The penalties in the words of the specification

    The statements below compare what the methods compute with these
    definitions over the reals. *)

Fixpoint Rsum (n : nat) (f : nat -> R) : R :=
  match n with
  | O => 0%R
  | S k => (Rsum k f + f k)%R
  end.

Definition is_fin (a : float) : bool :=
  match a with Fin _ => true | _ => false end.

Definition real (a : float) : R :=
  match a with Fin x => x | _ => 0%R end.

(** An activation batch: every entry inside the shape is a finite number. *)
Definition finite (M : matrix) : Prop :=
  forall i j, i < nrows M -> j < ncols M -> is_fin (entry M i j) = true.

(** Column [j] takes two different values in the batch. *)
Definition non_constant (M : matrix) (j : nat) : Prop :=
  exists i i', i < nrows M /\ i' < nrows M /\ entry M i j <> entry M i' j.

(** Column [j] is the finite number [c] in every example of the batch. *)
Definition constant_column (M : matrix) (j : nat) (c : R) : Prop :=
  forall i, i < nrows M -> entry M i j = Fin c.

(** All columns of the batch are the same. *)
Definition identical_columns (M : matrix) : Prop :=
  forall i j, i < nrows M -> j < ncols M -> entry M i j = entry M i 0.

Definition column_mean (M : matrix) (j : nat) : R :=
  (Rsum (nrows M) (fun i => real (entry M i j)) / INR (nrows M))%R.

(** The sample covariance of columns [j] and [k]: the Gram matrix of the
    mean-centered batch, normalized by [batch_size - 1]. *)
Definition sample_covariance (M : matrix) (j k : nat) : R :=
  (Rsum (nrows M)
        (fun i => (real (entry M i j) - column_mean M j)
                  * (real (entry M i k) - column_mean M k))
   / (INR (nrows M) - 1))%R.

Definition sum_sq_all (n : nat) (c : nat -> nat -> R) : R :=
  Rsum n (fun j => Rsum n (fun k => c j k * c j k))%R.

Definition sum_sq_diagonal (n : nat) (c : nat -> nat -> R) : R :=
  Rsum n (fun j => c j j * c j j)%R.

Definition sum_sq_off_diagonal (n : nat) (c : nat -> nat -> R) : R :=
  Rsum n (fun j =>
    Rsum n (fun k => if Nat.eqb j k then 0 else c j k * c j k))%R.

(** ** Attributes, for the statements on what a method writes *)

Inductive attr : Type :=
| A_minibatch_size
| A_mean_activation
| A_centered_activation
| A_activation_covariance
| A_covariance_squared
| A_off_diag_cov_sqr
| A_inv_std_vec
| A_activation_correlation
| A_correlation_squared
| A_off_diag_cor_sqr.

Inductive value : Type :=
| VInt (z : Z)
| VVector (v : vector)
| VMatrix (M : matrix)
| VFloat (x : float).

(** [getattr(self, a)], [None] when the attribute is absent. *)
Definition getattr (a : attr) (self : MLP) : option value :=
  match a with
  | A_minibatch_size => option_map VInt (minibatch_size self)
  | A_mean_activation => option_map VVector (mean_activation self)
  | A_centered_activation => option_map VMatrix (centered_activation self)
  | A_activation_covariance => option_map VMatrix (activation_covariance self)
  | A_covariance_squared => option_map VMatrix (covariance_squared self)
  | A_off_diag_cov_sqr => option_map VFloat (off_diag_cov_sqr self)
  | A_inv_std_vec => option_map VVector (inv_std_vec self)
  | A_activation_correlation =>
      option_map VMatrix (activation_correlation self)
  | A_correlation_squared => option_map VMatrix (correlation_squared self)
  | A_off_diag_cor_sqr => option_map VFloat (off_diag_cor_sqr self)
  end.

(** A method writes an attribute when some call changes or creates it. *)
Definition writes (method : MLP -> MLP) (a : attr) : Prop :=
  exists self, getattr a (method self) <> getattr a self.

(** A method leaves an attribute alone when no call changes it. *)
Definition preserves (method : MLP -> MLP) (a : attr) : Prop :=
  forall self, getattr a (method self) = getattr a self.

(** The attributes both penalty methods assign. *)
Definition shared_attr (a : attr) : bool :=
  match a with
  | A_minibatch_size | A_mean_activation | A_centered_activation
  | A_activation_covariance => true
  | _ => false
  end.

(** The attributes only [set_covariance] assigns. *)
Definition covariance_only (a : attr) : bool :=
  match a with
  | A_covariance_squared | A_off_diag_cov_sqr => true
  | _ => false
  end.

(** The attributes only [set_correlation] assigns. *)
Definition correlation_only (a : attr) : bool :=
  match a with
  | A_inv_std_vec | A_activation_correlation | A_correlation_squared
  | A_off_diag_cor_sqr => true
  | _ => false
  end.

(** The intermediate tensors both methods compute from the batch. *)
Definition centered_of (M : matrix) : matrix := msub_row M (mean0 M).

Definition covariance_of (M : matrix) : matrix :=
  scale (inv_dof (shape0 M)) (dot (transpose (centered_of M)) (centered_of M)).

Definition inv_std_of (M : matrix) : vector :=
  vpow_neg_half (vscale (inv_dof (shape0 M)) (sum0 (msqr (centered_of M)))).

Definition correlation_of (M : matrix) : matrix :=
  mul_row (transpose (row_mul (inv_std_of M) (covariance_of M)))
          (inv_std_of M).

(** [M.sum() - M.diagonal().sum()] *)
Definition off_diagonal_sum (M : matrix) : float :=
  fsub (msum M) (vsum (diagonal M)).

(** ** Concrete batches and a concrete back end, for the examples *)

(** Three examples, two hidden units, both [1, 0, -1]. *)
Definition batch_identical : matrix :=
  mkmat 3 2 (fun i _ => match i with
                        | 0 => Fin 1
                        | 1 => Fin 0
                        | _ => Fin (-1)
                        end).

(** Three examples, two hidden units: unit 0 is saturated at 1, unit 1 is
    [1, 0, -1]. *)
Definition batch_saturated : matrix :=
  mkmat 3 2 (fun i j => match j, i with
                        | 0, _ => Fin 1
                        | _, 0 => Fin 1
                        | _, 1 => Fin 0
                        | _, _ => Fin (-1)
                        end).

(** A generator whose state is a counter: the draw in [0 .. m] is the state
    modulo [m + 1]. *)
Definition counter_interval (m : nat) (s : nat) : nat * nat :=
  (s mod (m + 1), S s).

(** A back end with one parameter tensor of one entry, a gradient that is 1
    everywhere and a classifier that is wrong on every validation row. *)
Definition toy_init (n_hidden : Z) (s : nat) : list param * nat :=
  ([[Fin 0]], s).

Definition toy_grad (c : cost_expr) (rows : list nat) (ps : list param)
    (k : nat) : param := [Fin 1].

Definition toy_errors (rows : list nat) (ps : list param) : float := Fin 1.

Definition toy_timer (k : nat) : float := Fin (INR k).

(** The defaults of [test_mlp]. *)
Definition default_config : config :=
  mkconfig (Fin 0.01) (Fin 0) (Fin 0.0001) (Fin 0) (Fin 0) 1234 1000 20 500.

(** The events that do not read the clock. *)
Definition untimed (e : event) : bool :=
  match e with
  | EvTimer _ => false
  | EvPrint (MsgRanFor _) => false
  | _ => true
  end.

(** The events of building and running the training functions. *)
Definition training_event (e : event) : bool :=
  match e with
  | EvCompileValidate | EvGradients | EvCompileTrain | EvTimer _
  | EvEpoch _ => true
  | _ => false
  end.

(** ** Predicates of the statements on the training loop *)

(** [a] is [b] or strictly below it. *)
Definition not_above (a b : float) : Prop := a = b \/ flt a b = true.

(** No epoch run so far has a validation error strictly below the best. *)
Definition unbeaten {Rng : Type} (st : loop_state Rng) : Prop :=
  Forall (fun r => flt (e_validation_loss r) (best_validation_loss st) = false)
         (history st).

(** The record is the first best: no epoch run so far beats it, it is the
    start value [(inf, 0)] or the error and number of an epoch that was run,
    and no earlier epoch had that same error. *)
Definition first_seen_best {Rng : Type} (st : loop_state Rng) : Prop :=
  unbeaten st
  /\ (best_epoch st <= epoch st)%Z
  /\ (forall r, In r (history st) -> (e_epoch r < best_epoch st)%Z ->
                e_validation_loss r <> best_validation_loss st)
  /\ ((best_epoch st = 0%Z /\ best_validation_loss st = Inf false)
      \/ exists r, In r (history st)
                   /\ e_epoch r = best_epoch st
                   /\ e_validation_loss r = best_validation_loss st).

(** The index sequence of an epoch is a bijection onto [0 .. n-1]. *)
Definition bijection (n : nat) (l : list nat) : Prop :=
  Permutation l (seq 0 n)
  /\ length l = n
  /\ NoDup l
  /\ (forall k, In k l <-> k < n)
  /\ (forall k, k < n -> count_occ Nat.eq_dec l k = 1).

(** What integer batch counts do to an epoch: [n / bs] full minibatches made
    of the first [(n / bs) * bs] indices of the permutation, the last
    [n mod bs] indices in no minibatch; the same for the validation rows, in
    their own order; the validation error is the mean over the batches that
    were evaluated. *)
Definition drops_remainder (n_train n_valid : nat)
    (errors : list nat -> list param -> float) (bs : Z) (r : epoch_record)
    : Prop :=
  let ntb := (Z.of_nat n_train / bs)%Z in
  let nvb := (Z.of_nat n_valid / bs)%Z in
  let used := Z.to_nat (ntb * bs) in
  let vused := Z.to_nat (nvb * bs) in
  (length (e_train_rows r) = Z.to_nat ntb
   /\ Forall (fun c => Z.of_nat (length c) = bs) (e_train_rows r)
   /\ concat (e_train_rows r) = firstn used (e_index_perm r)
   /\ Z.of_nat (length (skipn used (e_index_perm r)))
      = (Z.of_nat n_train mod bs)%Z
   /\ (forall x, In x (skipn used (e_index_perm r)) ->
                 ~ In x (concat (e_train_rows r))))
  /\ (length (e_valid_rows r) = Z.to_nat nvb
      /\ concat (e_valid_rows r) = seq 0 vused
      /\ Z.of_nat (n_valid - vused) = (Z.of_nat n_valid mod bs)%Z
      /\ (forall x, vused <= x < n_valid ->
                    ~ In x (concat (e_valid_rows r)))
      /\ e_validation_loss r
         = np_mean (map (fun rows => errors rows (e_params r))
                        (e_valid_rows r)))
  /\ (0 <= Z.of_nat n_train mod bs <= bs - 1)%Z
  /\ (0 <= Z.of_nat n_valid mod bs <= bs - 1)%Z.

(** [test_mlp(batch_size=1, n_epochs=1)], other arguments at their
    defaults. *)
Definition config_batch_one : config :=
  mkconfig (Fin 0.01) (Fin 0) (Fin 0.0001) (Fin 0) (Fin 0) 1234 1 1 500.

(** [test_mlp(cov_reg=0.1, cor_reg=0.1)] *)
Definition config_both : config :=
  mkconfig (Fin 0.01) (Fin 0) (Fin 0.0001) (Fin 0.1) (Fin 0.1)
           1234 1000 20 500.

(** [test_mlp] on the toy back end, with 5 training and 3 validation
    examples. *)
Definition toy_test_mlp (cfg : config) : list event * outcome nat :=
  test_mlp nat Z.to_nat counter_interval 5 3 toy_init toy_grad toy_errors
           toy_timer cfg.

(** ** The norms of [MLP.__init__] and [MLP.get_correlation] *)

(** [abs(x)] *)
Definition fabs (a : float) : float :=
  match a with
  | Fin x => Fin (Rabs x)
  | Inf _ => Inf false
  | NaN => NaN
  end.

(** [abs(M)], element-wise *)
Definition mabs (M : matrix) : matrix :=
  mkmat (nrows M) (ncols M) (fun i j => fabs (entry M i j)).

(** [self.L1 = abs(self.hiddenLayer.W).sum()
              + abs(self.logRegressionLayer.W).sum()] *)
Definition MLP_L1 (hidden_W logreg_W : matrix) : float :=
  fadd (msum (mabs hidden_W)) (msum (mabs logreg_W)).

(** [self.L2_sqr = (self.hiddenLayer.W ** 2).sum()
                  + (self.logRegressionLayer.W ** 2).sum()] *)
Definition MLP_L2_sqr (hidden_W logreg_W : matrix) : float :=
  fadd (msum (msqr hidden_W)) (msum (msqr logreg_W)).

Inductive exception : Type := AttributeError | TypeError.

Inductive result (A : Type) : Type :=
| Value (a : A)
| Raise (e : exception).

Arguments Value {A}.
Arguments Raise {A}.

(** [MLP.get_correlation]: the object after the call and what the call
    gives.  Reading an attribute that was never assigned raises
    [AttributeError]; [truth] is the truth value Python gets from the stored
    tensor for [not self.activation_correlation], [None] when asking for it
    raises (Theano's variables decide this, not mlp.py). *)
Definition get_correlation (truth : matrix -> option bool) (self : MLP)
    : MLP * result matrix :=
  match activation_correlation self with
  | None => (self, Raise AttributeError)
  | Some c =>
      match truth c with
      | None => (self, Raise TypeError)
      | Some true => (self, Value c)
      | Some false =>
          let self' := set_correlation self in
          match activation_correlation self' with
          | Some c' => (self', Value c')
          | None => (self', Raise AttributeError)
          end
      end
  end.

(** ** More predicates for the statements *)

(** Every entry inside the shape is zero. *)
Definition all_zero (M : matrix) : Prop :=
  forall i j, i < nrows M -> j < ncols M -> entry M i j = Fin 0.

(** The record was improved at least once exactly when its epoch is not 0,
    and then its error is below [inf]; the epochs run are numbered from 1. *)
Definition improved_once {Rng : Type} (st : loop_state Rng) : Prop :=
  first_seen_best st
  /\ not_above (best_validation_loss st) (Inf false)
  /\ (0 <= best_epoch st)%Z
  /\ (0 <= epoch st)%Z
  /\ Forall (fun r => (1 <= e_epoch r)%Z) (history st)
  /\ (best_epoch st <> 0%Z ->
      flt (best_validation_loss st) (Inf false) = true).

(** Two parameter lists have the same tensors, entry count by entry
    count. *)
Definition same_shape (ps qs : list param) : Prop :=
  Forall2 (fun p q => length p = length q) ps qs.

(** Every entry of every tensor is a finite number. *)
Definition finite_params (ps : list param) : Prop :=
  Forall (Forall (fun x => is_fin x = true)) ps.

(** The calls of [train_model] in the recorded epochs. *)
Definition updates_in (h : list epoch_record) : nat :=
  list_sum (map (fun r => length (e_train_rows r)) h).

(** A gradient of ones, of the shape of the parameter. *)
Definition shaped_grad (c : cost_expr) (rows : list nat) (ps : list param)
    (k : nat) : param :=
  map (fun _ => Fin 1) (nth k ps []).

(** [test_mlp(learning_rate=0, batch_size=1, n_epochs=1)] *)
Definition config_zero_rate : config :=
  mkconfig (Fin 0) (Fin 0) (Fin 0.0001) (Fin 0) (Fin 0) 1234 1 1 500.

(** [test_mlp] on the toy back end with the shaped gradient. *)
Definition shaped_test_mlp (cfg : config) : list event * outcome nat :=
  test_mlp nat Z.to_nat counter_interval 5 3 toy_init shaped_grad toy_errors
           toy_timer cfg.

(** Two examples, two hidden units, the second unit of the first example
    an infinity. *)
Definition batch_overflowed : matrix :=
  mkmat 2 2 (fun i j => match i, j with
                        | 0, 1 => Inf false
                        | _, _ => Fin 0
                        end).

(** A two by two matrix of weights. *)
Definition weights_example : matrix :=
  mkmat 2 2 (fun i j => match i, j with
                        | 0, 0 => Fin 1
                        | 0, _ => Fin (-2)
                        | _, _ => Fin 0
                        end).

(** The centered activations of unit [j] are all zero: the variance that
    [set_correlation] computes for the unit is zero. *)
Definition zero_centered (M : matrix) (j : nat) : Prop :=
  forall i, i < nrows M -> entry (centered_of M) i j = Fin 0.

(** Entry [i] of the [k]-th parameter tensor is a NaN. *)
Definition nan_at (ps : list param) (k i : nat) : Prop :=
  exists p, nth_error ps k = Some p /\ nth_error p i = Some NaN.

(** [test_mlp(batch_size=2, n_epochs=1)], other arguments at their
    defaults. *)
Definition config_batch_two : config :=
  mkconfig (Fin 0.01) (Fin 0) (Fin 0.0001) (Fin 0) (Fin 0) 1234 1 2 500.

(** [test_mlp(cor_reg=0.1, batch_size=2, n_epochs=2)] *)
Definition config_correlation : config :=
  mkconfig (Fin 0.01) (Fin 0) (Fin 0.0001) (Fin 0) (Fin 0.1) 1234 2 2 500.

(** A gradient that is a NaN in every entry, of the shape of the
    parameter. *)
Definition nan_grad (c : cost_expr) (rows : list nat) (ps : list param)
    (k : nat) : param :=
  map (fun _ => NaN) (nth k ps []).

(** [test_mlp] on the toy back end with the NaN gradient. *)
Definition nan_test_mlp (cfg : config) : list event * outcome nat :=
  test_mlp nat Z.to_nat counter_interval 5 3 toy_init nan_grad toy_errors
           toy_timer cfg.

(** ** The penalty methods on binary64 numbers

    The lines of [set_covariance] and [set_correlation] once more, on the
    IEEE 754 binary64 numbers with rounding to nearest (the primitive floats
    of Rocq), to evaluate them on concrete batches.  A batch is the list of
    its rows; a sum runs left to right from 0 and a product is rounded before
    it is added. *)

Module B64.

Import PrimFloat.
Local Open Scope float_scope.

Definition tensor1 : Set := list float.
Definition tensor2 : Set := list (list float).

Definition of_int (z : Z) : float :=
  if (z <? 0)%Z then - of_uint63 (Uint63.of_Z (- z))
  else of_uint63 (Uint63.of_Z z).

(** [v.sum()] *)
Definition sum (v : tensor1) : float := fold_left add v 0.

Fixpoint map2 (f : float -> float -> float) (u v : tensor1) : tensor1 :=
  match u, v with
  | a :: u', b :: v' => f a b :: map2 f u' v'
  | _, _ => []
  end.

Definition width (M : tensor2) : nat :=
  match M with [] => O | r :: _ => length r end.

Definition column (M : tensor2) (j : nat) : tensor1 :=
  map (fun r => nth j r 0) M.

(** [M.T] *)
Definition transpose (M : tensor2) : tensor2 :=
  map (column M) (seq 0 (width M)).

(** [M.shape[0]] *)
Definition shape0 (M : tensor2) : Z := Z.of_nat (length M).

(** [M.mean(0)] *)
Definition mean0 (M : tensor2) : tensor1 :=
  map (fun c => sum c / of_int (shape0 M)) (transpose M).

(** [M.sum(0)] *)
Definition sum0 (M : tensor2) : tensor1 := map sum (transpose M).

(** [M - v], the vector cast over the rows *)
Definition msub_row (M : tensor2) (v : tensor1) : tensor2 :=
  map (fun r => map2 sub r v) M.

(** [v * M] and [M * v], the vector cast over the rows *)
Definition row_mul (v : tensor1) (M : tensor2) : tensor2 :=
  map (fun r => map2 mul v r) M.

Definition mul_row (M : tensor2) (v : tensor1) : tensor2 :=
  map (fun r => map2 mul r v) M.

(** [A.dot(B)] *)
Definition dot (A B : tensor2) : tensor2 :=
  map (fun r => map (fun c => sum (map2 mul r c)) (transpose B)) A.

(** [c * M] and [c * v] *)
Definition scale (c : float) (M : tensor2) : tensor2 := map (map (mul c)) M.

Definition vscale (c : float) (v : tensor1) : tensor1 := map (mul c) v.

(** [M ** 2] *)
Definition msqr (M : tensor2) : tensor2 := map (map (fun x => x * x)) M.

(** [x ** (-0.5)], which the graph optimizer of Theano turns into the
    inverse of the square root. *)
Definition pow_neg_half (x : float) : float := 1 / sqrt x.

(** [M.sum()] *)
Definition msum (M : tensor2) : float := sum (concat M).

(** [M.diagonal()] *)
Definition diagonal (M : tensor2) : tensor1 :=
  map (fun i => nth i (nth i M []) 0) (seq 0 (Nat.min (length M) (width M))).

(** [1.0/(self.minibatch_size-1)] *)
Definition inv_dof (M : tensor2) : float := 1 / of_int (shape0 M - 1).

(** The attributes the two methods assign, as functions of
    [self.hiddenLayer.output]. *)
Definition mean_activation (M : tensor2) : tensor1 := mean0 M.

Definition centered_activation (M : tensor2) : tensor2 :=
  msub_row M (mean_activation M).

Definition activation_covariance (M : tensor2) : tensor2 :=
  scale (inv_dof M)
        (dot (transpose (centered_activation M)) (centered_activation M)).

Definition covariance_squared (M : tensor2) : tensor2 :=
  msqr (activation_covariance M).

Definition off_diag_cov_sqr (M : tensor2) : float :=
  msum (covariance_squared M) - sum (diagonal (covariance_squared M)).

Definition inv_std_vec (M : tensor2) : tensor1 :=
  map pow_neg_half
      (vscale (inv_dof M) (sum0 (msqr (centered_activation M)))).

Definition activation_correlation (M : tensor2) : tensor2 :=
  mul_row (transpose (row_mul (inv_std_vec M) (activation_covariance M)))
          (inv_std_vec M).

Definition correlation_squared (M : tensor2) : tensor2 :=
  msqr (activation_correlation M).

Definition off_diag_cor_sqr (M : tensor2) : float :=
  msum (correlation_squared M) - sum (diagonal (correlation_squared M)).

(** The sum of the squares of the entries off the diagonal, entry by
    entry. *)
Definition sum_sq_off_diagonal (C : tensor2) : float :=
  sum (concat
         (map (fun i =>
                 concat
                   (map (fun j =>
                           if Nat.eqb i j then []
                           else [nth j (nth i C []) 0 * nth j (nth i C []) 0])
                        (seq 0 (width C))))
              (seq 0 (length C)))).

(** Entry [(i, j)] of a matrix and entry [j] of a vector. *)
Definition entry (M : tensor2) (i j : nat) : float := nth j (nth i M []) 0.

Definition vget (v : tensor1) (j : nat) : float := nth j v 0.

(** The doubles next to 0.1, 0.2 and 0.4. *)
Definition tenth : float := 0x1.999999999999ap-4.
Definition fifth : float := 0x1.999999999999ap-3.
Definition two_fifths : float := 0x1.999999999999ap-2.

(** Two examples, two hidden units: [1, -1] and [2^-30, -2^-30]. *)
Definition batch_tiny : tensor2 := [[1; 0x1p-30]; [-1; -0x1p-30]].

(** Three examples, two hidden units, both [0.1, 0.2, 0.4]. *)
Definition batch_doubling : tensor2 :=
  [[tenth; tenth]; [fifth; fifth]; [two_fifths; two_fifths]].

(** Three examples, two hidden units: unit 0 is constant at 0.1, unit 1 is
    [1, 0, -1]. *)
Definition batch_tenth : tensor2 := [[tenth; 1]; [tenth; 0]; [tenth; -1]].

(** Three examples, two hidden units: unit 0 is saturated at 1, unit 1 is
    [1, 0, -1]. *)
Definition batch_one : tensor2 := [[1; 1]; [1; 0]; [1; -1]].

End B64.

(** ** Facts on the float operations *)

Lemma Rzero_true (x : R) : x = 0%R -> Rzero x = true.
Proof. intros ->. unfold Rzero. destruct (Req_dec_T 0 0); [reflexivity | contradiction]. Qed.

Lemma Rzero_false (x : R) : x <> 0%R -> Rzero x = false.
Proof. intros H. unfold Rzero. destruct (Req_dec_T x 0); [contradiction | reflexivity]. Qed.

Lemma Rneg_false (x : R) : (0 <= x)%R -> Rneg x = false.
Proof. intros H. unfold Rneg. destruct (Rlt_dec x 0); [lra | reflexivity]. Qed.

Lemma fadd_nan_l (a : float) : fadd NaN a = NaN.
Proof. reflexivity. Qed.

Lemma fadd_nan_r (a : float) : fadd a NaN = NaN.
Proof. destruct a; reflexivity. Qed.

Lemma fmul_nan_l (a : float) : fmul NaN a = NaN.
Proof. reflexivity. Qed.

Lemma fmul_nan_r (a : float) : fmul a NaN = NaN.
Proof. destruct a; reflexivity. Qed.

Lemma fsub_nan_l (a : float) : fsub NaN a = NaN.
Proof. reflexivity. Qed.

Lemma fsub_nan_r (a : float) : fsub a NaN = NaN.
Proof. destruct a; reflexivity. Qed.

Lemma fsub_fin (x y : R) : fsub (Fin x) (Fin y) = Fin (x - y).
Proof. reflexivity. Qed.

Lemma fdiv_fin (x y : R) : y <> 0%R -> fdiv (Fin x) (Fin y) = Fin (x / y).
Proof. intros H. simpl. rewrite (Rzero_false y H). reflexivity. Qed.

Lemma fsum_ext (n : nat) (f g : nat -> float) :
  (forall i, i < n -> f i = g i) -> fsum n f = fsum n g.
Proof.
  induction n as [|n IH]; intros H; simpl; [reflexivity|].
  rewrite IH by (intros; apply H; lia).
  rewrite (H n) by lia. reflexivity.
Qed.

Lemma fsum_fin (n : nat) (f : nat -> R) :
  fsum n (fun i => Fin (f i)) = Fin (Rsum n f).
Proof.
  induction n as [|n IH]; simpl; [reflexivity|]. rewrite IH. reflexivity.
Qed.

Lemma fsum_nan (n k : nat) (f : nat -> float) :
  k < n -> f k = NaN -> fsum n f = NaN.
Proof.
  induction n as [|n IH]; intros Hk Hf; [lia|]. simpl.
  destruct (Nat.eq_dec k n) as [->|Hne].
  - rewrite Hf. apply fadd_nan_r.
  - rewrite IH by (lia || assumption). reflexivity.
Qed.

Lemma Rsum_ext (n : nat) (f g : nat -> R) :
  (forall i, i < n -> f i = g i) -> Rsum n f = Rsum n g.
Proof.
  induction n as [|n IH]; intros H; simpl; [reflexivity|].
  rewrite IH by (intros; apply H; lia).
  rewrite (H n) by lia. reflexivity.
Qed.

Lemma Rsum_const (n : nat) (c : R) : Rsum n (fun _ => c) = (INR n * c)%R.
Proof.
  induction n as [|n IH]; [simpl; lra|].
  cbn [Rsum]. rewrite IH, S_INR. lra.
Qed.

Lemma Rsum_minus (n : nat) (f g : nat -> R) :
  (Rsum n f - Rsum n g)%R = Rsum n (fun i => f i - g i)%R.
Proof. induction n as [|n IH]; simpl; [lra|]. rewrite <- IH. lra. Qed.

Lemma Rsum_pick (n j : nat) (g : nat -> R) :
  j < n ->
  Rsum n g = (Rsum n (fun k => if Nat.eqb j k then 0 else g k) + g j)%R.
Proof.
  induction n as [|n IH]; intros Hj; [lia|]. simpl.
  destruct (Nat.eq_dec j n) as [->|Hne].
  - rewrite Nat.eqb_refl.
    rewrite (Rsum_ext n (fun k => if Nat.eqb n k then 0%R else g k) g).
    + lra.
    + intros i Hi. destruct (Nat.eqb_spec n i); [lia | reflexivity].
  - rewrite IH by lia.
    destruct (Nat.eqb_spec j n); [contradiction | lra].
Qed.

Lemma off_diagonal_split (n : nat) (c : nat -> nat -> R) :
  sum_sq_off_diagonal n c = (sum_sq_all n c - sum_sq_diagonal n c)%R.
Proof.
  unfold sum_sq_off_diagonal, sum_sq_all, sum_sq_diagonal.
  rewrite Rsum_minus. apply Rsum_ext. intros j Hj.
  rewrite (Rsum_pick n j (fun k => c j k * c j k)%R Hj). lra.
Qed.

(** ** What the two methods store *)

Lemma set_covariance_result (self : MLP) :
  off_diag_cov_sqr (set_covariance self)
  = Some (off_diagonal_sum (msqr (covariance_of (hiddenLayer_output self)))).
Proof. reflexivity. Qed.

Lemma set_correlation_result (self : MLP) :
  off_diag_cor_sqr (set_correlation self)
  = Some (off_diagonal_sum (msqr (correlation_of (hiddenLayer_output self)))).
Proof. reflexivity. Qed.

Lemma set_correlation_matrix (self : MLP) :
  activation_correlation (set_correlation self)
  = Some (correlation_of (hiddenLayer_output self)).
Proof. reflexivity. Qed.

Lemma set_correlation_inv_std (self : MLP) :
  inv_std_vec (set_correlation self)
  = Some (inv_std_of (hiddenLayer_output self)).
Proof. reflexivity. Qed.

Lemma covariance_entry (M : matrix) (j k : nat) :
  entry (covariance_of M) j k
  = fmul (inv_dof (shape0 M))
         (fsum (nrows M)
               (fun i => fmul (entry (centered_of M) i j)
                              (entry (centered_of M) i k))).
Proof. reflexivity. Qed.

Lemma inv_std_entry (M : matrix) (j : nat) :
  vget (inv_std_of M) j
  = fpow_neg_half
      (fmul (inv_dof (shape0 M))
            (fsum (nrows M) (fun i => fsqr (entry (centered_of M) i j)))).
Proof. reflexivity. Qed.

Lemma correlation_entry (M : matrix) (j k : nat) :
  entry (correlation_of M) j k
  = fmul (fmul (vget (inv_std_of M) j) (entry (covariance_of M) k j))
         (vget (inv_std_of M) k).
Proof. reflexivity. Qed.

Lemma off_diagonal_sum_sqr (C : matrix) :
  off_diagonal_sum (msqr C)
  = fsub (fsum (nrows C)
               (fun j => fsum (ncols C) (fun k => fsqr (entry C j k))))
         (fsum (Nat.min (nrows C) (ncols C)) (fun j => fsqr (entry C j j))).
Proof. reflexivity. Qed.

(** ** Finite batches: the tensors of the methods over the reals *)

Section FiniteBatch.

Variable M : matrix.
Hypothesis M_finite : finite M.

Lemma fin_entry (i j : nat) :
  i < nrows M -> j < ncols M -> entry M i j = Fin (real (entry M i j)).
Proof.
  intros Hi Hj. specialize (M_finite i j Hi Hj).
  destruct (entry M i j); simpl in *; congruence.
Qed.

Lemma column_sum_fin (j : nat) :
  j < ncols M ->
  fsum (nrows M) (fun i => entry M i j)
  = Fin (Rsum (nrows M) (fun i => real (entry M i j))).
Proof.
  intros Hj. rewrite <- fsum_fin. apply fsum_ext.
  intros i Hi. apply fin_entry; assumption.
Qed.

Lemma mean0_fin (j : nat) :
  0 < nrows M -> j < ncols M -> vget (mean0 M) j = Fin (column_mean M j).
Proof.
  intros Hm Hj. unfold mean0, column_mean, of_int, shape0. simpl.
  rewrite column_sum_fin by assumption.
  rewrite <- INR_IZR_INZ. apply fdiv_fin.
  apply not_0_INR. lia.
Qed.

Lemma centered_fin (i j : nat) :
  i < nrows M -> j < ncols M ->
  entry (centered_of M) i j = Fin (real (entry M i j) - column_mean M j).
Proof.
  intros Hi Hj.
  change (entry (centered_of M) i j)
    with (fsub (entry M i j) (vget (mean0 M) j)).
  rewrite mean0_fin by (lia || assumption).
  rewrite (fin_entry i j Hi Hj). apply fsub_fin.
Qed.

Lemma inv_dof_fin :
  1 < nrows M -> inv_dof (shape0 M) = Fin (/ (INR (nrows M) - 1)).
Proof.
  intros Hm. unfold inv_dof, of_int, shape0.
  rewrite minus_IZR, <- INR_IZR_INZ.
  assert (Hge : (2 <= INR (nrows M))%R).
  { replace 2%R with (INR 2) by (simpl; lra). apply le_INR. lia. }
  rewrite fdiv_fin by lra. f_equal. unfold Rdiv. lra.
Qed.

Lemma covariance_fin (j k : nat) :
  1 < nrows M -> j < ncols M -> k < ncols M ->
  entry (covariance_of M) j k = Fin (sample_covariance M j k).
Proof.
  intros Hm Hj Hk. rewrite covariance_entry.
  rewrite inv_dof_fin by assumption.
  rewrite (fsum_ext _ _
    (fun i => Fin ((real (entry M i j) - column_mean M j)
                   * (real (entry M i k) - column_mean M k)))).
  - rewrite fsum_fin. simpl. f_equal. unfold sample_covariance, Rdiv. lra.
  - intros i Hi. rewrite !centered_fin by assumption. reflexivity.
Qed.

Lemma covariance_squared_sum :
  1 < nrows M ->
  off_diagonal_sum (msqr (covariance_of M))
  = Fin (sum_sq_all (ncols M) (sample_covariance M)
         - sum_sq_diagonal (ncols M) (sample_covariance M)).
Proof.
  intros Hm. rewrite off_diagonal_sum_sqr.
  change (nrows (covariance_of M)) with (ncols M).
  change (ncols (covariance_of M)) with (ncols M).
  rewrite Nat.min_id.
  rewrite (fsum_ext _ _
    (fun j => Fin (Rsum (ncols M)
       (fun k => sample_covariance M j k * sample_covariance M j k)%R))).
  - rewrite fsum_fin.
    rewrite (fsum_ext _ _
      (fun j => Fin (sample_covariance M j j * sample_covariance M j j))).
    + rewrite fsum_fin. reflexivity.
    + intros j Hj. rewrite covariance_fin by assumption. reflexivity.
  - intros j Hj. rewrite <- fsum_fin. apply fsum_ext. intros k Hk.
    rewrite covariance_fin by assumption. reflexivity.
Qed.

End FiniteBatch.

(** C3, amended.  Read over the reals, without rounding: for every batch of
    finite activations with more than one row, the number [set_covariance]
    stores in [off_diag_cov_sqr] is the sum of the squared off-diagonal
    entries of the sample covariance matrix of the batch (the Gram matrix of
    the mean-centered batch divided by [batch_size - 1]), which is also the
    sum of all its squared entries minus the sum of its squared diagonal
    entries.  The program evaluates the second form, each operation rounded;
    [B64] below shows a batch where that is not the first. *)
Theorem covariance_penalty_is_off_diagonal_sum (self : MLP) :
  finite (hiddenLayer_output self) ->
  (1 < shape0 (hiddenLayer_output self))%Z ->
  let M := hiddenLayer_output self in
  let n := ncols M in
  off_diag_cov_sqr (set_covariance self)
  = Some (Fin (sum_sq_off_diagonal n (sample_covariance M)))
  /\ sum_sq_off_diagonal n (sample_covariance M)
     = (sum_sq_all n (sample_covariance M)
        - sum_sq_diagonal n (sample_covariance M))%R.
Proof.
  intros Hfin Hm. cbv zeta. unfold shape0 in Hm. split.
  - rewrite set_covariance_result.
    rewrite (covariance_squared_sum _ Hfin) by lia.
    rewrite off_diagonal_split. reflexivity.
  - apply off_diagonal_split.
Qed.

(** ** Batches without a constant column: the correlation matrix *)

Lemma Rpower_neg_half (v : R) : (0 < v)%R -> Rpower v (-0.5) = (/ sqrt v)%R.
Proof.
  intros Hv. replace (-0.5)%R with (- / 2)%R by lra.
  rewrite Rpower_Ropp, Rpower_sqrt by assumption. reflexivity.
Qed.

Lemma inv_sqrt_normalizes (v : R) :
  (0 < v)%R -> (/ sqrt v * v * / sqrt v)%R = 1%R.
Proof.
  intros Hv. pose proof (sqrt_lt_R0 v Hv) as Hs.
  rewrite <- (sqrt_sqrt v) at 2 by lra. field. lra.
Qed.

Lemma Rsum_sq_nonneg (n : nat) (f : nat -> R) :
  (0 <= Rsum n (fun i => f i * f i))%R.
Proof.
  induction n as [|n IH]; simpl; [lra|]. pose proof (Rle_0_sqr (f n)) as H.
  unfold Rsqr in H. lra.
Qed.

Lemma Rsum_sq_pos (n i : nat) (f : nat -> R) :
  i < n -> f i <> 0%R -> (0 < Rsum n (fun i => f i * f i))%R.
Proof.
  induction n as [|n IH]; intros Hi Hf; [lia|]. simpl.
  pose proof (Rsum_sq_nonneg n f) as Hn.
  destruct (Nat.eq_dec i n) as [->|Hne].
  - pose proof (Rsqr_pos_lt (f n) Hf) as H. unfold Rsqr in H. lra.
  - pose proof (IH ltac:(lia) Hf) as H.
    pose proof (Rle_0_sqr (f n)) as H'. unfold Rsqr in H'. lra.
Qed.

Section NonConstant.

Variable M : matrix.
Hypothesis M_finite : finite M.

Lemma non_constant_rows (j : nat) : non_constant M j -> 1 < nrows M.
Proof.
  intros (i & i' & Hi & Hi' & Hne).
  destruct (Nat.eq_dec i i') as [->|Hii]; [congruence | lia].
Qed.

Lemma variance_pos (j : nat) :
  j < ncols M -> non_constant M j -> (0 < sample_covariance M j j)%R.
Proof.
  intros Hj Hnc. pose proof (non_constant_rows j Hnc) as Hm.
  destruct Hnc as (i & i' & Hi & Hi' & Hne).
  rewrite (fin_entry M M_finite i j Hi Hj),
          (fin_entry M M_finite i' j Hi' Hj) in Hne.
  assert (Hge : (2 <= INR (nrows M))%R).
  { replace 2%R with (INR 2) by (simpl; lra). apply le_INR. lia. }
  unfold sample_covariance. apply Rdiv_lt_0_compat; [|lra].
  destruct (Req_dec_T (real (entry M i j)) (column_mean M j)) as [He|He].
  - apply (Rsum_sq_pos (nrows M) i'
             (fun i => real (entry M i j) - column_mean M j)%R Hi').
    intros H0. apply Hne. f_equal. lra.
  - apply (Rsum_sq_pos (nrows M) i
             (fun i => real (entry M i j) - column_mean M j)%R Hi).
    lra.
Qed.

Lemma inv_std_fin (j : nat) :
  j < ncols M -> non_constant M j ->
  vget (inv_std_of M) j = Fin (/ sqrt (sample_covariance M j j)).
Proof.
  intros Hj Hnc. pose proof (non_constant_rows j Hnc) as Hm.
  pose proof (variance_pos j Hj Hnc) as Hv.
  rewrite inv_std_entry, (inv_dof_fin M) by assumption.
  rewrite (fsum_ext _ _
    (fun i => Fin ((real (entry M i j) - column_mean M j)
                   * (real (entry M i j) - column_mean M j)))).
  - rewrite fsum_fin.
    replace (fmul (Fin (/ (INR (nrows M) - 1))) (Fin (Rsum (nrows M)
               (fun i => (real (entry M i j) - column_mean M j)
                         * (real (entry M i j) - column_mean M j))%R)))
      with (Fin (sample_covariance M j j)).
    + unfold fpow_neg_half.
      rewrite Rzero_false, Rneg_false by lra.
      rewrite Rpower_neg_half by assumption. reflexivity.
    + simpl. f_equal. unfold sample_covariance, Rdiv. lra.
  - intros i Hi. rewrite (centered_fin M M_finite) by assumption.
    reflexivity.
Qed.

Lemma correlation_fin (j k : nat) :
  j < ncols M -> k < ncols M -> non_constant M j -> non_constant M k ->
  entry (correlation_of M) j k
  = Fin (/ sqrt (sample_covariance M j j) * sample_covariance M k j
         * / sqrt (sample_covariance M k k)).
Proof.
  intros Hj Hk Hncj Hnck. pose proof (non_constant_rows j Hncj) as Hm.
  rewrite correlation_entry, !inv_std_fin by assumption.
  rewrite (covariance_fin M M_finite) by assumption. reflexivity.
Qed.

Lemma correlation_diagonal (j : nat) :
  j < ncols M -> non_constant M j -> entry (correlation_of M) j j = Fin 1.
Proof.
  intros Hj Hnc. rewrite correlation_fin by assumption. f_equal.
  apply inv_sqrt_normalizes. apply variance_pos; assumption.
Qed.

Lemma identical_columns_covariance (j k : nat) :
  identical_columns M -> 0 < nrows M -> j < ncols M -> k < ncols M ->
  sample_covariance M j k = sample_covariance M 0 0.
Proof.
  intros Hid Hm Hj Hk.
  assert (Hmean : forall c, c < ncols M -> column_mean M c = column_mean M 0).
  { intros c Hc. unfold column_mean. f_equal. apply Rsum_ext.
    intros i Hi. rewrite (Hid i c Hi Hc). reflexivity. }
  unfold sample_covariance. f_equal. apply Rsum_ext. intros i Hi.
  rewrite (Hmean j Hj), (Hmean k Hk), (Hid i j Hi Hj), (Hid i k Hi Hk).
  reflexivity.
Qed.

End NonConstant.


(** ** A constant column, read over the reals: the correlation penalty is a
    NaN *)

Lemma degenerate_unit (d : float) :
  let v := fmul d (Fin 0) in
  is_fin (fpow_neg_half v) = false
  /\ fmul (fmul (fpow_neg_half v) v) (fpow_neg_half v) = NaN.
Proof.
  destruct d as [y|s|]; simpl.
  - rewrite !(Rzero_true (y * 0)) by lra. simpl.
    rewrite (Rzero_true (y * 0)) by lra. split; reflexivity.
  - rewrite (Rzero_true 0) by reflexivity. split; reflexivity.
  - split; reflexivity.
Qed.

Lemma fold_fadd_nan (env : quantity -> float) (ts : list term) :
  fold_left (fun acc u => fadd acc (term_value env u)) ts NaN = NaN.
Proof. induction ts as [|t ts IH]; simpl; [reflexivity | exact IH]. Qed.

Lemma fold_fadd_nan_term (env : quantity -> float) (ts : list term)
    (t : term) (a : float) :
  In t ts -> term_value env t = NaN ->
  fold_left (fun acc u => fadd acc (term_value env u)) ts a = NaN.
Proof.
  revert a. induction ts as [|u ts IH]; intros a Hin Ht; [contradiction|].
  simpl. destruct Hin as [->|Hin].
  - rewrite Ht, fadd_nan_r. apply fold_fadd_nan.
  - apply IH; assumption.
Qed.

Lemma cost_value_nan (env : quantity -> float) (c : cost_expr) (t : term) :
  In t c -> term_value env t = NaN -> cost_value env c = NaN.
Proof.
  destruct c as [|u ts]; intros Hin Ht; [contradiction|]. simpl.
  destruct Hin as [->|Hin].
  - rewrite Ht. apply fold_fadd_nan.
  - apply (fold_fadd_nan_term env ts t); assumption.
Qed.

Lemma sgd_nan (lr : float) (p g : param) :
  Forall (eq NaN) g -> Forall (eq NaN) (sgd lr p g).
Proof.
  revert g. induction p as [|x p IH]; intros g Hg; [constructor|].
  destruct g as [|y g]; [constructor|].
  inversion Hg as [|? ? Hy Hg']; subst. unfold sgd. simpl. constructor.
  - rewrite fmul_nan_r, fsub_nan_r. reflexivity.
  - apply IH. assumption.
Qed.

Section ConstantColumn.

Variable M : matrix.
Variable j : nat.
Variable c : R.
Hypothesis j_in : j < ncols M.
Hypothesis column_j : constant_column M j c.

Lemma constant_column_centered (i : nat) :
  i < nrows M -> entry (centered_of M) i j = Fin (c - INR (nrows M) * c / INR (nrows M)).
Proof.
  intros Hi.
  change (entry (centered_of M) i j)
    with (fsub (entry M i j)
               (fdiv (fsum (nrows M) (fun i => entry M i j))
                     (of_int (shape0 M)))).
  rewrite (fsum_ext _ _ (fun _ => Fin c)) by (intros; apply column_j; assumption).
  rewrite fsum_fin, Rsum_const, (column_j i Hi).
  unfold of_int, shape0. rewrite <- INR_IZR_INZ.
  rewrite fdiv_fin by (apply not_0_INR; lia). reflexivity.
Qed.

Lemma constant_column_squares :
  fsum (nrows M) (fun i => fsqr (entry (centered_of M) i j)) = Fin 0.
Proof.
  rewrite (fsum_ext _ _ (fun _ => Fin 0)).
  - rewrite fsum_fin, Rsum_const. f_equal. lra.
  - intros i Hi. rewrite constant_column_centered by assumption.
    simpl. f_equal.
    assert (INR (nrows M) <> 0%R) by (apply not_0_INR; lia).
    field. assumption.
Qed.

Lemma constant_column_inv_std :
  is_fin (vget (inv_std_of M) j) = false
  /\ (1 < nrows M -> vget (inv_std_of M) j = Inf false).
Proof.
  rewrite inv_std_entry, constant_column_squares. split.
  - apply degenerate_unit.
  - intros Hm. unfold inv_dof, of_int, shape0.
    rewrite minus_IZR, <- INR_IZR_INZ.
    assert (Hge : (2 <= INR (nrows M))%R).
    { replace 2%R with (INR 2) by (simpl; lra). apply le_INR. lia. }
    rewrite fdiv_fin by lra. simpl. rewrite Rzero_true by lra. reflexivity.
Qed.

Lemma constant_column_correlation : entry (correlation_of M) j j = NaN.
Proof.
  rewrite correlation_entry, covariance_entry, inv_std_entry.
  change (fun i => fmul (entry (centered_of M) i j) (entry (centered_of M) i j))
    with (fun i => fsqr (entry (centered_of M) i j)).
  rewrite constant_column_squares. apply degenerate_unit.
Qed.

Lemma constant_column_penalty :
  off_diagonal_sum (msqr (correlation_of M)) = NaN.
Proof.
  rewrite off_diagonal_sum_sqr.
  change (nrows (correlation_of M)) with (ncols M).
  change (ncols (correlation_of M)) with (ncols M).
  rewrite (fsum_nan (ncols M) j) ; [reflexivity | assumption |].
  apply (fsum_nan (ncols M) j); [assumption|].
  rewrite constant_column_correlation. reflexivity.
Qed.

End ConstantColumn.

(** ** What the penalty methods write *)

Lemma fresh_write (method : MLP -> MLP) (a : attr) :
  getattr a (method (new_MLP batch_identical)) <> None -> writes method a.
Proof.
  intros H. exists (new_MLP batch_identical).
  replace (getattr a (new_MLP batch_identical)) with (@None value);
    [exact H | destruct a; reflexivity].
Qed.

(** C10, as stated, fails: the claim makes the two final results the only
    attributes that one method assigns and the other does not, yet
    [covariance_squared] is assigned by [set_covariance] alone. *)
Lemma final_results_not_the_only_distinct_attributes :
  ~ (forall a,
       (writes set_covariance a /\ preserves set_correlation a)
       \/ (writes set_correlation a /\ preserves set_covariance a) ->
       a = A_off_diag_cov_sqr \/ a = A_off_diag_cor_sqr).
Proof.
  intros H. destruct (H A_covariance_squared) as [E|E]; try discriminate.
  left. split.
  - apply fresh_write. simpl. discriminate.
  - intros self. reflexivity.
Qed.

(** C10, amended.  Both methods assign [minibatch_size], [mean_activation],
    [centered_activation] and [activation_covariance], each from the batch
    alone and to the same value, so a call of one replaces what the other
    left there; [covariance_squared] and [off_diag_cov_sqr] are assigned by
    [set_covariance] only and survive [set_correlation]; [inv_std_vec],
    [activation_correlation], [correlation_squared] and [off_diag_cor_sqr]
    are assigned by [set_correlation] only and survive [set_covariance];
    there is no other attribute. *)
Theorem penalty_methods_attributes :
  (forall a, shared_attr a = true ->
     writes set_covariance a /\ writes set_correlation a
     /\ (forall self, getattr a (set_covariance self)
                      = getattr a (set_correlation self))
     /\ (forall self self',
           hiddenLayer_output self = hiddenLayer_output self' ->
           getattr a (set_covariance self) = getattr a (set_covariance self')
           /\ getattr a (set_correlation self)
              = getattr a (set_correlation self')))
  /\ (forall a, covariance_only a = true ->
        writes set_covariance a /\ preserves set_correlation a)
  /\ (forall a, correlation_only a = true ->
        writes set_correlation a /\ preserves set_covariance a)
  /\ (forall a, shared_attr a || covariance_only a || correlation_only a
                = true)
  /\ (forall self,
        hiddenLayer_output (set_covariance self) = hiddenLayer_output self
        /\ hiddenLayer_output (set_correlation self)
           = hiddenLayer_output self).
Proof.
  split; [|split; [|split; [|split]]].
  - intros a Ha. split; [|split; [|split]].
    + destruct a; try discriminate; apply fresh_write; simpl; discriminate.
    + destruct a; try discriminate; apply fresh_write; simpl; discriminate.
    + intros self. destruct a; try discriminate; reflexivity.
    + intros self self' Hout.
      destruct a; try discriminate; simpl; rewrite Hout; split; reflexivity.
  - intros a Ha. split.
    + destruct a; try discriminate; apply fresh_write; simpl; discriminate.
    + intros self. destruct a; try discriminate; reflexivity.
  - intros a Ha. split.
    + destruct a; try discriminate; apply fresh_write; simpl; discriminate.
    + intros self. destruct a; try discriminate; reflexivity.
  - intros a. destruct a; reflexivity.
  - intros self. split; reflexivity.
Qed.

(** ** The penalty theorems at concrete batches *)

Lemma batch_identical_finite : finite batch_identical.
Proof. intros i j _ _. simpl. destruct i as [|[|i]]; reflexivity. Qed.

Lemma batch_identical_non_constant (j : nat) :
  non_constant batch_identical j.
Proof.
  exists 0, 1. simpl. repeat split; try lia.
  intros H. injection H as H. lra.
Qed.


Lemma covariance_penalty_is_off_diagonal_sum_witness :
  off_diag_cov_sqr (set_covariance (new_MLP batch_identical))
  = Some (Fin (sum_sq_off_diagonal 2 (sample_covariance batch_identical))).
Proof.
  apply (covariance_penalty_is_off_diagonal_sum (new_MLP batch_identical)).
  - exact batch_identical_finite.
  - reflexivity.
Defined.


(** ** The shuffle permutes *)

Lemma upd_length {A : Type} (l : list A) (i : nat) (v : A) :
  length (upd l i v) = length l.
Proof.
  revert i. induction l as [|h t IH]; intros [|i]; simpl; try reflexivity.
  rewrite IH. reflexivity.
Qed.

Lemma upd_extract (l : list nat) (j v : nat) :
  j < length l -> Permutation (nth j l 0 :: upd l j v) (v :: l).
Proof.
  revert j. induction l as [|h t IH]; intros [|j] Hj; simpl in *; try lia.
  - apply perm_swap.
  - rewrite perm_swap. rewrite (IH j) by lia. apply perm_swap.
Qed.

Lemma swap_length (x : list nat) (i j : nat) :
  length (swap x i j) = length x.
Proof. unfold swap. rewrite !upd_length. reflexivity. Qed.

Lemma swap_permutation (x : list nat) (i j : nat) :
  i < length x -> j < length x -> Permutation (swap x i j) x.
Proof.
  unfold swap. revert i j.
  induction x as [|h t IH]; intros [|i] [|j] Hi Hj; simpl in *; try lia.
  - reflexivity.
  - apply upd_extract. lia.
  - apply upd_extract. lia.
  - constructor. apply IH; lia.
Qed.

Section ShuffleProofs.

Variable Rng : Type.
Variable rk_interval : nat -> Rng -> nat * Rng.
Hypothesis rk_interval_le : forall m s, fst (rk_interval m s) <= m.

Lemma shuffle_permutation (i : nat) (x : list nat) (s : Rng) :
  i < length x -> Permutation (fst (shuffle Rng rk_interval i x s)) x.
Proof.
  revert x s. induction i as [|i IH]; intros x s Hi; simpl; [reflexivity|].
  pose proof (rk_interval_le (S i) s) as Hj.
  destruct (rk_interval (S i) s) as [j s']. simpl in Hj.
  rewrite IH by (rewrite swap_length; lia).
  apply swap_permutation; lia.
Qed.

Lemma permutation_is_bijection (n : nat) (s : Rng) :
  Permutation (fst (permutation Rng rk_interval n s)) (seq 0 n).
Proof.
  unfold permutation. destruct n as [|n]; [reflexivity|].
  apply shuffle_permutation. rewrite length_seq. lia.
Qed.

End ShuffleProofs.

(** What being a permutation of [0 .. n-1] gives. *)
Lemma bijection_facts (n : nat) (l : list nat) :
  Permutation l (seq 0 n) -> bijection n l.
Proof.
  intros HP.
  assert (Hnd : NoDup l).
  { apply (Permutation_NoDup (Permutation_sym HP)). apply seq_NoDup. }
  assert (Hin : forall k, In k l <-> k < n).
  { intros k. split.
    - intros H. apply (Permutation_in _ HP) in H. apply in_seq in H. lia.
    - intros H. apply (Permutation_in _ (Permutation_sym HP)).
      apply in_seq. lia. }
  unfold bijection. repeat split; try assumption; try (apply Hin).
  - rewrite (Permutation_length HP). apply length_seq.
  - intros k Hk. apply NoDup_count_occ'; [exact Hnd | apply Hin; exact Hk].
Qed.

(** ** Lists, ranges and slices *)

Lemma firstn_add {A : Type} (a b : nat) (l : list A) :
  firstn (a + b) l = firstn a l ++ firstn b (skipn a l).
Proof.
  revert l. induction a as [|a IH]; intros l; [reflexivity|].
  destruct l as [|h t]; simpl.
  - rewrite firstn_nil. reflexivity.
  - rewrite IH. reflexivity.
Qed.

Lemma firstn_seq (k a n : nat) : firstn k (seq a n) = seq a (Nat.min k n).
Proof.
  revert a n. induction k as [|k IH]; intros a [|n]; simpl; try reflexivity.
  rewrite IH. reflexivity.
Qed.

Lemma NoDup_app_disjoint {A : Type} (l1 l2 : list A) (x : A) :
  NoDup (l1 ++ l2) -> In x l2 -> ~ In x l1.
Proof.
  induction l1 as [|h t IH]; intros Hnd H2 H1; [contradiction|].
  simpl in Hnd. inversion Hnd as [|? ? Hh Hnd']; subst.
  destruct H1 as [->|H1].
  - apply Hh. apply in_or_app. right. exact H2.
  - exact (IH Hnd' H2 H1).
Qed.

Lemma xrange_of_nat (q : nat) : xrange (Z.of_nat q) = map Z.of_nat (seq 0 q).
Proof. unfold xrange. rewrite Nat2Z.id. reflexivity. Qed.

Lemma slice_chunk {A : Type} (l : list A) (b k : nat) :
  slice l (Z.of_nat k * Z.of_nat b) ((Z.of_nat k + 1) * Z.of_nat b)
  = firstn b (skipn (k * b) l).
Proof.
  unfold slice. f_equal.
  - lia.
  - f_equal. lia.
Qed.

Lemma concat_chunks {A : Type} (l : list A) (b q : nat) :
  concat (map (fun k => firstn b (skipn (k * b) l)) (seq 0 q))
  = firstn (q * b) l.
Proof.
  induction q as [|q IH]; [reflexivity|].
  rewrite seq_S, map_app, concat_app, IH. simpl.
  rewrite app_nil_r. replace (b + q * b) with (q * b + b) by lia.
  symmetry. apply firstn_add.
Qed.

Lemma chunks_full {A : Type} (l : list A) (b q : nat) :
  q * b <= length l ->
  Forall (fun c => length c = b)
         (map (fun k => firstn b (skipn (k * b) l)) (seq 0 q)).
Proof.
  intros Hq. apply Forall_forall. intros c Hc.
  apply in_map_iff in Hc. destruct Hc as (k & <- & Hk).
  apply in_seq in Hk. rewrite length_firstn, length_skipn. nia.
Qed.

Lemma batches_of_chunks {A : Type} (l : list A) (b q : nat) :
  let batches := map (fun i => slice l (i * Z.of_nat b)
                                     ((i + 1) * Z.of_nat b))
                     (xrange (Z.of_nat q)) in
  length batches = q
  /\ concat batches = firstn (q * b) l
  /\ (q * b <= length l -> Forall (fun c => length c = b) batches).
Proof.
  cbv zeta. rewrite xrange_of_nat, map_map.
  rewrite (map_ext _ (fun k => firstn b (skipn (k * b) l)))
    by (intros k; apply slice_chunk).
  repeat split.
  - rewrite length_map, length_seq. reflexivity.
  - apply concat_chunks.
  - apply chunks_full.
Qed.

(** The rows of all the batches of size [bs] that [count] indices select
    from [l]. *)
Lemma batches_of_slices {A : Type} (l : list A) (bs count : Z) :
  (0 < bs)%Z -> (0 <= count)%Z ->
  let batches := map (fun i => slice l (i * bs) ((i + 1) * bs))
                     (xrange count) in
  length batches = Z.to_nat count
  /\ concat batches = firstn (Z.to_nat (count * bs)) l
  /\ ((count * bs <= Z.of_nat (length l))%Z ->
      Forall (fun c => Z.of_nat (length c) = bs) batches).
Proof.
  intros Hbs Hc. cbv zeta.
  destruct (batches_of_chunks l (Z.to_nat bs) (Z.to_nat count))
    as (Hlen & Hcat & Hfull).
  rewrite !Z2Nat.id in Hlen, Hcat, Hfull by lia.
  repeat split.
  - exact Hlen.
  - rewrite Hcat. f_equal. lia.
  - intros Hle. assert (Hq : Z.to_nat count * Z.to_nat bs <= length l) by lia.
    specialize (Hfull Hq). rewrite Forall_forall in *.
    intros c Hin. rewrite (Hfull c Hin). lia.
Qed.

(** ** The order on floats used by the best-model test *)

Lemma flt_irrefl (a : float) : flt a a = false.
Proof.
  destruct a as [x|s|]; simpl; try reflexivity.
  - destruct (Rlt_dec x x); [lra | reflexivity].
  - destruct s; reflexivity.
Qed.

Lemma flt_asym (a b : float) : flt a b = true -> flt b a = false.
Proof.
  destruct a as [x|s|], b as [y|t|]; simpl; try discriminate; try reflexivity.
  - destruct (Rlt_dec x y), (Rlt_dec y x); try discriminate; try reflexivity.
    lra.
  - destruct t; simpl; [discriminate | reflexivity].
  - destruct s; simpl; [reflexivity | discriminate].
  - destruct s, t; simpl; try discriminate; reflexivity.
Qed.

Lemma flt_trans (a b c : float) :
  flt a b = true -> flt b c = true -> flt a c = true.
Proof.
  destruct a as [x|s|], b as [y|t|], c as [z|u|]; simpl;
    try discriminate; try reflexivity;
    repeat match goal with
           | |- context [Rlt_dec ?p ?q] => destruct (Rlt_dec p q)
           | s : bool |- _ => destruct s
           end; simpl; try discriminate; try reflexivity; try lra; auto.
Qed.

Lemma not_above_refl (a : float) : not_above a a.
Proof. left. reflexivity. Qed.

Lemma not_above_trans (a b c : float) :
  not_above a b -> not_above b c -> not_above a c.
Proof.
  intros [->|Hab] [->|Hbc]; [left; reflexivity | right; assumption
                            | right; assumption |].
  right. exact (flt_trans a b c Hab Hbc).
Qed.

Lemma not_above_flt (a b : float) : not_above a b -> flt b a = false.
Proof. intros [->|H]; [apply flt_irrefl | apply flt_asym; exact H]. Qed.

Lemma not_beaten (l b b' : float) :
  flt l b = false -> not_above b' b -> flt l b' = false.
Proof.
  intros Hl [->|Hb]; [exact Hl|].
  destruct (flt l b') eqn:E; [|reflexivity].
  rewrite (flt_trans l b' b E Hb) in Hl. discriminate.
Qed.

(** ** The training loop *)

Section TrainingProofs.

Variable Rng : Type.
Variable RandomState : Z -> Rng.
Variable rk_interval : nat -> Rng -> nat * Rng.
Variable n_train : nat.
Variable n_valid : nat.
Variable init_params : Z -> Rng -> list param * Rng.
Variable grad : cost_expr -> list nat -> list param -> nat -> param.
Variable errors : list nat -> list param -> float.

Local Abbreviation draw := (permutation Rng rk_interval n_train).
Local Abbreviation epoch_of := (train_epoch Rng rk_interval n_train n_valid grad errors).
Local Abbreviation body := (one_epoch Rng rk_interval n_train n_valid grad errors).
Local Abbreviation iterate := (run_epochs Rng rk_interval n_train n_valid grad errors).
Local Abbreviation loop := (while_loop Rng rk_interval n_train n_valid grad errors).
Local Abbreviation start := (initial_state Rng RandomState init_params).
Local Abbreviation fixed := (setup_of n_train n_valid).
Local Abbreviation run :=
  (test_mlp Rng RandomState rk_interval n_train n_valid init_params grad errors).

Lemma shuffle_length (i : nat) (x : list nat) (s : Rng) :
  length (fst (shuffle Rng rk_interval i x s)) = length x.
Proof.
  revert x s. induction i as [|i IH]; intros x s; simpl; [reflexivity|].
  destruct (rk_interval (S i) s) as [j s'].
  rewrite IH. apply swap_length.
Qed.

Lemma permutation_length (s : Rng) : length (fst (draw s)) = n_train.
Proof. unfold permutation. rewrite shuffle_length. apply length_seq. Qed.

Lemma train_epoch_record (su : setup) (st : loop_state Rng) :
  let r := fst (epoch_of su st) in
  e_epoch r = (epoch st + 1)%Z
  /\ e_index_perm r = fst (draw (rng st))
  /\ snd (epoch_of su st) = snd (draw (rng st))
  /\ e_train_rows r
     = map (train_rows (s_batch_size su) (e_index_perm r))
           (xrange (n_train_batches su))
  /\ e_valid_rows r
     = map (valid_rows n_valid (s_batch_size su)) (xrange (n_valid_batches su))
  /\ e_validation_loss r
     = np_mean (map (fun rows => errors rows (e_params r)) (e_valid_rows r)).
Proof.
  unfold train_epoch. destruct (draw (rng st)) as [perm rng'].
  simpl. repeat split; reflexivity.
Qed.

Lemma one_epoch_state (su : setup) (st : loop_state Rng) :
  let r := fst (epoch_of su st) in
  epoch (body su st) = (epoch st + 1)%Z
  /\ rng (body su st) = snd (draw (rng st))
  /\ params (body su st) = e_params r
  /\ history (body su st) = history st ++ [r]
  /\ (best_validation_loss (body su st), best_epoch (body su st))
     = (if flt (e_validation_loss r) (best_validation_loss st)
        then (e_validation_loss r, (epoch st + 1)%Z)
        else (best_validation_loss st, best_epoch st)).
Proof.
  destruct (train_epoch_record su st) as (He & _ & Hr & _).
  unfold one_epoch. cbv zeta in *.
  destruct (epoch_of su st) as [r rng'] eqn:E. simpl in *.
  destruct (flt (e_validation_loss r) (best_validation_loss st));
    simpl; rewrite He, Hr; repeat split; reflexivity.
Qed.

Lemma run_epochs_epoch (su : setup) (k : nat) (st : loop_state Rng) :
  epoch (iterate su k st) = (epoch st + Z.of_nat k)%Z.
Proof.
  revert st. induction k as [|k IH]; intros st; [simpl; lia|].
  cbn [run_epochs]. rewrite IH.
  destruct (one_epoch_state su st) as (-> & _). lia.
Qed.

Lemma run_epochs_history_length (su : setup) (k : nat) (st : loop_state Rng) :
  length (history (iterate su k st)) = length (history st) + k.
Proof.
  revert st. induction k as [|k IH]; intros st; [simpl; lia|].
  cbn [run_epochs]. rewrite IH.
  destruct (one_epoch_state su st) as (_ & _ & _ & -> & _).
  rewrite length_app. simpl. lia.
Qed.

Lemma run_epochs_history_Forall (P : epoch_record -> Prop) (su : setup) :
  (forall st, P (fst (epoch_of su st))) ->
  forall k st, Forall P (history st) -> Forall P (history (iterate su k st)).
Proof.
  intros HP. induction k as [|k IH]; intros st Hst; [exact Hst|].
  cbn [run_epochs]. apply IH.
  destruct (one_epoch_state su st) as (_ & _ & _ & -> & _).
  apply Forall_app. split; [exact Hst|]. constructor; [apply HP | constructor].
Qed.

(** The recursion on the number of epochs left is the [while] loop. *)
Lemma while_loop_unfold (su : setup) (st : loop_state Rng) :
  loop su st
  = if (epoch st <? s_n_epochs su)%Z then loop su (body su st) else st.
Proof.
  unfold while_loop. destruct (Z.ltb_spec (epoch st) (s_n_epochs su)) as [H|H].
  - destruct (one_epoch_state su st) as (-> & _).
    replace (Z.to_nat (s_n_epochs su - epoch st))
      with (S (Z.to_nat (s_n_epochs su - (epoch st + 1)))) by lia.
    reflexivity.
  - replace (Z.to_nat (s_n_epochs su - epoch st)) with 0 by lia.
    reflexivity.
Qed.

Lemma initial_state_fresh (cfg : config) :
  epoch (start cfg) = 0%Z
  /\ best_validation_loss (start cfg) = Inf false
  /\ best_epoch (start cfg) = 0%Z
  /\ history (start cfg) = [].
Proof.
  unfold initial_state.
  destruct (init_params (n_hidden cfg) (RandomState (rand_seed cfg))).
  repeat split; reflexivity.
Qed.

Lemma untimed_penalties (calls : list penalty_call) :
  filter untimed (map EvPenalty calls) = map EvPenalty calls.
Proof.
  induction calls as [|c calls IH]; simpl; [reflexivity|].
  rewrite IH. reflexivity.
Qed.

Lemma untimed_epochs (h : list epoch_record) :
  filter untimed (map EvEpoch h) = map EvEpoch h.
Proof.
  induction h as [|r h IH]; simpl; [reflexivity|]. rewrite IH. reflexivity.
Qed.

Section Clock.

Variable default_timer : nat -> float.

Lemma test_mlp_zero_batch (cfg : config) :
  batch_size cfg = 0%Z ->
  run default_timer cfg = ([EvLoadData], ZeroDivisionError).
Proof. intros H. unfold test_mlp, int_div. rewrite H. reflexivity. Qed.

Lemma test_mlp_exit (cfg : config) (status : Z) :
  batch_size cfg <> 0%Z -> select_cost cfg = SysExit status ->
  run default_timer cfg
  = ([EvLoadData; EvPrint MsgBuilding; EvRandomState (rand_seed cfg);
      EvBuildModel; EvPrint MsgCannotUseBoth], Exit status).
Proof.
  intros Hbs Hsel. unfold test_mlp, int_div.
  apply Z.eqb_neq in Hbs. rewrite Hbs, Hsel.
  destruct (init_params (n_hidden cfg) (RandomState (rand_seed cfg))).
  reflexivity.
Qed.

Lemma test_mlp_return (cfg : config) (calls : list penalty_call)
    (cost : cost_expr) :
  batch_size cfg <> 0%Z -> select_cost cfg = Cost calls cost ->
  snd (run default_timer cfg) = Return (loop (fixed cfg cost) (start cfg))
  /\ In EvCompileTrain (fst (run default_timer cfg))
  /\ filter untimed (fst (run default_timer cfg))
     = [EvLoadData; EvPrint MsgBuilding; EvRandomState (rand_seed cfg);
        EvBuildModel]
       ++ map EvPenalty calls
       ++ [EvCompileValidate; EvGradients; EvCompileTrain;
           EvPrint MsgTraining]
       ++ map EvEpoch (history (loop (fixed cfg cost) (start cfg)))
       ++ [EvPrint (MsgComplete
             (fmul (best_validation_loss (loop (fixed cfg cost) (start cfg)))
                   (Fin 100))
             (best_epoch (loop (fixed cfg cost) (start cfg)))
             (best_epoch (loop (fixed cfg cost) (start cfg))
              * (Z.of_nat n_train / batch_size cfg))%Z)].
Proof.
  intros Hbs Hsel. unfold test_mlp, int_div, initial_state, setup_of.
  apply Z.eqb_neq in Hbs. rewrite Hbs, Hsel.
  destruct (init_params (n_hidden cfg) (RandomState (rand_seed cfg)))
    as [params0 rng1].
  cbn [fst snd]. repeat split.
  - apply in_or_app. right. apply in_or_app. right. apply in_or_app. left.
    simpl. auto.
  - repeat (rewrite ?filter_app, ?untimed_penalties, ?untimed_epochs;
            cbn [app filter untimed]).
    reflexivity.
Qed.

Lemma select_cost_cases (cfg : config) :
  (ne0 (cov_reg cfg) && ne0 (cor_reg cfg) = true ->
   select_cost cfg = SysExit 1)
  /\ (ne0 (cov_reg cfg) && ne0 (cor_reg cfg) = false ->
      exists calls cost,
        select_cost cfg = Cost calls cost
        /\ cost = base_cost cfg ++ penalties cost
        /\ ((eq0 (cov_reg cfg) = true /\ eq0 (cor_reg cfg) = true
             /\ calls = [] /\ penalties cost = [])
            \/ (ne0 (cov_reg cfg) = true /\ eq0 (cor_reg cfg) = true
                /\ calls = [CallSetCovariance]
                /\ penalties cost = [Weighted (cov_reg cfg) OffDiagCovSqr])
            \/ (eq0 (cov_reg cfg) = true /\ ne0 (cor_reg cfg) = true
                /\ calls = [CallSetCorrelation]
                /\ penalties cost = [Weighted (cor_reg cfg) OffDiagCorSqr]))).
Proof.
  unfold select_cost, ne0.
  destruct (eq0 (cov_reg cfg)), (eq0 (cor_reg cfg)); simpl; split;
    try discriminate; try reflexivity; intros _;
    eexists; eexists; (split; [reflexivity|]); (split; [reflexivity|]).
  - left. repeat split.
  - right. right. repeat split.
  - right. left. repeat split.
Qed.

(** C1. When both penalty weights are nonzero the regularisation branch is
    [sys.exit(1)]: the call ends with status 1 after the data set is loaded
    and the model built, and nothing of training has happened by then (no
    training function compiled, no gradient taken, no timer read, no epoch
    run).  For every other pair of weights the branch does not exit: it
    assembles a cost whose decorrelation summands are none, the covariance
    penalty alone or the correlation penalty alone, and the call goes on to
    the training loop. *)
Theorem regularization_weights_are_exclusive (cfg : config) :
  (ne0 (cov_reg cfg) && ne0 (cor_reg cfg) = true ->
     select_cost cfg = SysExit 1
     /\ (batch_size cfg <> 0%Z ->
         run default_timer cfg
         = ([EvLoadData; EvPrint MsgBuilding; EvRandomState (rand_seed cfg);
             EvBuildModel; EvPrint MsgCannotUseBoth], Exit 1))
     /\ (forall e, In e (fst (run default_timer cfg)) ->
                   training_event e = false)
     /\ (forall final, snd (run default_timer cfg) <> Return final))
  /\ (ne0 (cov_reg cfg) && ne0 (cor_reg cfg) = false ->
      (forall status, snd (run default_timer cfg) <> Exit status)
      /\ exists calls cost,
           select_cost cfg = Cost calls cost
           /\ cost = base_cost cfg ++ penalties cost
           /\ ((eq0 (cov_reg cfg) = true /\ eq0 (cor_reg cfg) = true
                /\ calls = [] /\ penalties cost = [])
               \/ (ne0 (cov_reg cfg) = true /\ eq0 (cor_reg cfg) = true
                   /\ calls = [CallSetCovariance]
                   /\ penalties cost
                      = [Weighted (cov_reg cfg) OffDiagCovSqr])
               \/ (eq0 (cov_reg cfg) = true /\ ne0 (cor_reg cfg) = true
                   /\ calls = [CallSetCorrelation]
                   /\ penalties cost
                      = [Weighted (cor_reg cfg) OffDiagCorSqr]))
           /\ (batch_size cfg <> 0%Z ->
               snd (run default_timer cfg)
               = Return (loop (fixed cfg cost) (start cfg))
               /\ In EvCompileTrain (fst (run default_timer cfg)))).
Proof.
  destruct (select_cost_cases cfg) as [Hboth Hother]. split.
  - intros Hw. specialize (Hboth Hw). split; [exact Hboth|].
    destruct (Z.eq_dec (batch_size cfg) 0) as [Hz|Hnz].
    + rewrite (test_mlp_zero_batch cfg Hz). repeat split.
      * intros Hne. contradiction.
      * intros e [<-|[]]. reflexivity.
      * discriminate.
    + rewrite (test_mlp_exit cfg 1 Hnz Hboth). repeat split.
      * intros e He. simpl in He.
        repeat (destruct He as [<-|He]; [reflexivity|]). contradiction.
      * discriminate.
  - intros Hw. destruct (Hother Hw) as (calls & cost & Hsel & Hcost & Hcases).
    split.
    + intros status.
      destruct (Z.eq_dec (batch_size cfg) 0) as [Hz|Hnz].
      * rewrite (test_mlp_zero_batch cfg Hz). discriminate.
      * destruct (test_mlp_return cfg calls cost Hnz Hsel) as (-> & _).
        discriminate.
    + exists calls, cost. repeat split; try assumption.
      * apply (test_mlp_return cfg calls cost); assumption.
      * apply (test_mlp_return cfg calls cost); assumption.
Qed.

Lemma while_loop_history_length (su : setup) (st : loop_state Rng) :
  length (history (loop su st))
  = length (history st) + Z.to_nat (s_n_epochs su - epoch st).
Proof. apply run_epochs_history_length. Qed.

Lemma test_mlp_history_length (cfg : config) (final : loop_state Rng) :
  snd (run default_timer cfg) = Return final ->
  length (history final) = Z.to_nat (n_epochs cfg).
Proof.
  intros Hret.
  destruct (Z.eq_dec (batch_size cfg) 0) as [Hz|Hnz].
  - rewrite (test_mlp_zero_batch cfg Hz) in Hret. discriminate.
  - destruct (select_cost cfg) as [calls cost|status] eqn:Hsel.
    + destruct (test_mlp_return cfg calls cost Hnz Hsel) as (Hrun & _).
      rewrite Hrun in Hret. injection Hret as <-.
      rewrite while_loop_history_length.
      destruct (initial_state_fresh cfg) as (-> & _ & _ & ->).
      simpl. f_equal. unfold setup_of. simpl. lia.
    + rewrite (test_mlp_exit cfg status Hnz Hsel) in Hret. discriminate.
Qed.

(** Whatever holds of every epoch the body can run holds of every epoch of
    a call that returns. *)
Lemma test_mlp_history_Forall (P : epoch_record -> Prop) (cfg : config)
    (final : loop_state Rng) :
  (forall cost st, P (fst (epoch_of (fixed cfg cost) st))) ->
  snd (run default_timer cfg) = Return final ->
  Forall P (history final).
Proof.
  intros HP Hret.
  destruct (Z.eq_dec (batch_size cfg) 0) as [Hz|Hnz].
  - rewrite (test_mlp_zero_batch cfg Hz) in Hret. discriminate.
  - destruct (select_cost cfg) as [calls cost|status] eqn:Hsel.
    + destruct (test_mlp_return cfg calls cost Hnz Hsel) as (Hrun & _).
      rewrite Hrun in Hret. injection Hret as <-.
      apply run_epochs_history_Forall; [apply HP|].
      destruct (initial_state_fresh cfg) as (_ & _ & _ & ->). constructor.
    + rewrite (test_mlp_exit cfg status Hnz Hsel) in Hret. discriminate.
Qed.

(** *** The best-model record *)

Lemma step_not_above (su : setup) (st : loop_state Rng) :
  not_above (best_validation_loss (body su st)) (best_validation_loss st).
Proof.
  destruct (one_epoch_state su st) as (_ & _ & _ & _ & Hbest).
  cbv zeta in Hbest.
  destruct (flt _ (best_validation_loss st)) eqn:E;
    injection Hbest as Hb _; rewrite Hb.
  - right. exact E.
  - left. reflexivity.
Qed.

Lemma run_not_above (su : setup) (k : nat) (st : loop_state Rng) :
  not_above (best_validation_loss (iterate su k st)) (best_validation_loss st).
Proof.
  revert st. induction k as [|k IH]; intros st; [apply not_above_refl|].
  cbn [run_epochs].
  exact (not_above_trans _ _ _ (IH (body su st)) (step_not_above su st)).
Qed.

Lemma step_unbeaten (su : setup) (st : loop_state Rng) :
  unbeaten st -> unbeaten (body su st).
Proof.
  unfold unbeaten. intros Hst.
  pose proof (step_not_above su st) as Hna.
  destruct (one_epoch_state su st) as (_ & _ & _ & Hh & Hbest).
  cbv zeta in Hh, Hbest. rewrite Hh. apply Forall_app. split.
  - apply Forall_forall. intros r Hr. rewrite Forall_forall in Hst.
    exact (not_beaten _ _ _ (Hst r Hr) Hna).
  - constructor; [|constructor].
    destruct (flt _ (best_validation_loss st)) eqn:E;
      injection Hbest as Hb _; rewrite Hb.
    + apply flt_irrefl.
    + exact E.
Qed.

Lemma step_first_seen_best (su : setup) (st : loop_state Rng) :
  first_seen_best st -> first_seen_best (body su st).
Proof.
  intros (Hun & Hle & Hfirst & Hrec).
  pose proof (step_unbeaten su st Hun) as Hun'.
  destruct (train_epoch_record su st) as (Her & _).
  destruct (one_epoch_state su st) as (He & _ & _ & Hh & Hbest).
  cbv zeta in Her, Hh, Hbest. unfold first_seen_best.
  rewrite He, Hh. split; [exact Hun'|].
  destruct (flt _ (best_validation_loss st)) eqn:E;
    injection Hbest as Hb Hbe; rewrite Hb, Hbe.
  - split; [lia|]. split.
    + intros r Hr Hlt Heq. apply in_app_or in Hr. destruct Hr as [Hr|Hr].
      * unfold unbeaten in Hun. rewrite Forall_forall in Hun.
        specialize (Hun r Hr). rewrite Heq, E in Hun. discriminate.
      * destruct Hr as [<-|[]]. rewrite Her in Hlt. lia.
    + right. eexists. split; [apply in_or_app; right; left; reflexivity|].
      split; [exact Her | reflexivity].
  - split; [lia|]. split.
    + intros r Hr Hlt. apply in_app_or in Hr. destruct Hr as [Hr|Hr].
      * apply Hfirst; assumption.
      * destruct Hr as [<-|[]]. rewrite Her in Hlt. lia.
    + destruct Hrec as [Hstart|(r & Hr & Hre & Hrl)]; [left; exact Hstart|].
      right. exists r. split; [apply in_or_app; left; exact Hr|].
      split; assumption.
Qed.

Lemma run_first_seen_best (su : setup) (k : nat) (st : loop_state Rng) :
  first_seen_best st -> first_seen_best (iterate su k st).
Proof.
  revert st. induction k as [|k IH]; intros st Hst; [exact Hst|].
  cbn [run_epochs]. apply IH. apply step_first_seen_best. exact Hst.
Qed.

Lemma start_first_seen_best (cfg : config) : first_seen_best (start cfg).
Proof.
  destruct (initial_state_fresh cfg) as (He & Hb & Hbe & Hh).
  unfold first_seen_best, unbeaten. rewrite He, Hb, Hbe, Hh.
  split; [constructor|]. split; [lia|]. split.
  - intros r [].
  - left. split; reflexivity.
Qed.

(** C6. An epoch changes the best-model record exactly when its validation
    error is strictly below the recorded best, and then to that error and
    that epoch; on a tie the record stays as it is; the recorded best never
    goes up, over one epoch or over any number of epochs; and the record
    stays the first best: when [test_mlp] returns, no epoch it ran has a
    validation error strictly below the recorded best, and the recorded epoch
    is the first one with that error. *)
Theorem best_model_record_only_improves (su : setup) (st : loop_state Rng)
    (k : nat) (cfg : config) :
  let r := fst (epoch_of su st) in
  let st' := body su st in
  (best_validation_loss st', best_epoch st')
  = (if flt (e_validation_loss r) (best_validation_loss st)
     then (e_validation_loss r, (epoch st + 1)%Z)
     else (best_validation_loss st, best_epoch st))
  /\ (e_validation_loss r = best_validation_loss st ->
      best_validation_loss st' = best_validation_loss st
      /\ best_epoch st' = best_epoch st)
  /\ flt (best_validation_loss st) (best_validation_loss st') = false
  /\ not_above (best_validation_loss (iterate su k st))
               (best_validation_loss st)
  /\ flt (best_validation_loss st) (best_validation_loss (iterate su k st))
     = false
  /\ (first_seen_best st -> first_seen_best (iterate su k st))
  /\ match snd (run default_timer cfg) with
     | Return final =>
         first_seen_best final
         /\ not_above (best_validation_loss final) (Inf false)
     | _ => True
     end.
Proof.
  cbv zeta.
  destruct (one_epoch_state su st) as (_ & _ & _ & _ & Hbest).
  cbv zeta in Hbest. split; [exact Hbest|]. split; [|split; [|split; [|split; [|split]]]].
  - intros Htie. rewrite Htie, flt_irrefl in Hbest.
    injection Hbest as -> ->. split; reflexivity.
  - apply not_above_flt. apply step_not_above.
  - apply run_not_above.
  - apply not_above_flt. apply run_not_above.
  - apply run_first_seen_best.
  - destruct (snd (run default_timer cfg)) as [| |final] eqn:Hret;
      [exact I | exact I |].
    destruct (Z.eq_dec (batch_size cfg) 0) as [Hz|Hnz].
    { rewrite (test_mlp_zero_batch cfg Hz) in Hret. discriminate. }
    destruct (select_cost cfg) as [calls cost|status] eqn:Hsel.
    + destruct (test_mlp_return cfg calls cost Hnz Hsel) as (Hrun & _).
      rewrite Hrun in Hret. injection Hret as <-.
      destruct (initial_state_fresh cfg) as (_ & Hb & _ & Hh). split.
      * apply run_first_seen_best. apply start_first_seen_best.
      * rewrite <- Hb. apply run_not_above.
    + rewrite (test_mlp_exit cfg status Hnz Hsel) in Hret. discriminate.
Qed.

(** *** The permutation of every epoch *)

Section BoundedDraws.

Hypothesis rk_interval_le : forall m s, fst (rk_interval m s) <= m.

Lemma epoch_bijection (su : setup) (st : loop_state Rng) :
  bijection n_train (e_index_perm (fst (epoch_of su st))).
Proof.
  destruct (train_epoch_record su st) as (_ & -> & _).
  apply bijection_facts.
  apply permutation_is_bijection. exact rk_interval_le.
Qed.

(** C7. The index sequence of an epoch is what [rng.permutation] returns on
    the generator as the previous epoch left it, and the generator moves on;
    it is a bijection onto [0 .. n_train - 1]: a rearrangement of these
    indices, of length [n_train], without a repeated index, containing
    exactly the indices in range, each once.  This holds of every epoch of a
    call of [test_mlp] that returns, and there are [n_epochs] of them. *)
Theorem every_epoch_draws_a_bijection (su : setup) (st : loop_state Rng)
    (cfg : config) :
  let r := fst (epoch_of su st) in
  e_index_perm r = fst (draw (rng st))
  /\ rng (body su st) = snd (draw (rng st))
  /\ bijection n_train (e_index_perm r)
  /\ match snd (run default_timer cfg) with
     | Return final =>
         length (history final) = Z.to_nat (n_epochs cfg)
         /\ Forall (fun r => bijection n_train (e_index_perm r))
                   (history final)
     | _ => True
     end.
Proof.
  cbv zeta.
  destruct (train_epoch_record su st) as (_ & Hperm & _).
  destruct (one_epoch_state su st) as (_ & Hrng & _).
  repeat split; try assumption; try (apply epoch_bijection).
  destruct (snd (run default_timer cfg)) as [| |final] eqn:Hret;
    [exact I | exact I |]. split.
  - apply test_mlp_history_length. exact Hret.
  - apply (test_mlp_history_Forall _ cfg final); [|exact Hret].
    intros cost st0. apply epoch_bijection.
Qed.

(** *** Integer batch counts *)

Lemma epoch_drops_remainder (cfg : config) (cost : cost_expr)
    (st : loop_state Rng) :
  (0 < batch_size cfg)%Z ->
  drops_remainder n_train n_valid errors (batch_size cfg)
                  (fst (epoch_of (fixed cfg cost) st)).
Proof.
  intros Hbs. set (bs := batch_size cfg) in *.
  set (r := fst (epoch_of (fixed cfg cost) st)).
  destruct (train_epoch_record (fixed cfg cost) st)
    as (_ & Hperm & _ & Htr & Hva & Hloss).
  fold r in Hperm, Htr, Hva, Hloss. cbn [setup_of s_batch_size
    n_train_batches n_valid_batches] in Htr, Hva. fold bs in Htr, Hva.
  assert (Hlen : length (e_index_perm r) = n_train)
    by (rewrite Hperm; apply permutation_length).
  assert (Hnd : NoDup (e_index_perm r)).
  { pose proof (epoch_bijection (fixed cfg cost) st) as Hb. fold r in Hb.
    apply Hb. }
  pose proof (Z.div_pos (Z.of_nat n_train) bs ltac:(lia) Hbs) as Hq.
  pose proof (Z.div_pos (Z.of_nat n_valid) bs ltac:(lia) Hbs) as Hvq.
  pose proof (Z.div_mod (Z.of_nat n_train) bs ltac:(lia)) as Hdm.
  pose proof (Z.div_mod (Z.of_nat n_valid) bs ltac:(lia)) as Hvdm.
  pose proof (Z.mod_pos_bound (Z.of_nat n_train) bs Hbs) as Hm.
  pose proof (Z.mod_pos_bound (Z.of_nat n_valid) bs Hbs) as Hvm.
  destruct (batches_of_slices (e_index_perm r) bs (Z.of_nat n_train / bs)
              Hbs Hq) as (Hl1 & Hc1 & Hf1).
  destruct (batches_of_slices (seq 0 n_valid) bs (Z.of_nat n_valid / bs)
              Hbs Hvq) as (Hl2 & Hc2 & _).
  unfold train_rows in Htr. unfold valid_rows in Hva.
  rewrite <- Htr in Hl1, Hc1, Hf1. rewrite <- Hva in Hl2, Hc2.
  unfold drops_remainder. cbv zeta. fold bs.
  split; [|split; [|split; lia]].
  - split; [exact Hl1|]. split; [apply Hf1; rewrite Hlen; nia|].
    split; [exact Hc1|]. split.
    + rewrite length_skipn, Hlen. nia.
    + intros x Hx. rewrite Hc1.
      apply (NoDup_app_disjoint _ (skipn (Z.to_nat (Z.of_nat n_train / bs * bs))
                                         (e_index_perm r))); [|exact Hx].
      rewrite firstn_skipn. exact Hnd.
  - assert (Hseq : concat (e_valid_rows r)
                   = seq 0 (Z.to_nat (Z.of_nat n_valid / bs * bs))).
    { rewrite Hc2, firstn_seq. f_equal. nia. }
    split; [exact Hl2|]. split; [exact Hseq|]. split; [nia|].
    split; [|exact Hloss].
    intros x Hx Hin. rewrite Hseq in Hin. apply in_seq in Hin. lia.
Qed.

(** C8. With a positive batch size, the batch counts of [test_mlp] are the
    floor quotients [n_train / batch_size] and [n_valid / batch_size], and
    every epoch of a call that returns trains on that many full minibatches,
    made of the first [n_train_batches * batch_size] indices of its
    permutation: the last [n_train mod batch_size] indices, at most
    [batch_size - 1] of them, are in no minibatch of the epoch.  The same
    holds of the validation set in its own order, and the validation error of
    the epoch is the mean over the batches that were evaluated. *)
Theorem remainder_examples_are_dropped (cfg : config) :
  (0 < batch_size cfg)%Z ->
  int_div (Z.of_nat n_train) (batch_size cfg)
  = Some (Z.of_nat n_train / batch_size cfg)%Z
  /\ int_div (Z.of_nat n_valid) (batch_size cfg)
     = Some (Z.of_nat n_valid / batch_size cfg)%Z
  /\ (forall cost st,
        drops_remainder n_train n_valid errors (batch_size cfg)
                        (fst (epoch_of (fixed cfg cost) st)))
  /\ match snd (run default_timer cfg) with
     | Return final =>
         length (history final) = Z.to_nat (n_epochs cfg)
         /\ Forall (drops_remainder n_train n_valid errors (batch_size cfg))
                   (history final)
     | Exit status => select_cost cfg = SysExit status
     | ZeroDivisionError => False
     end.
Proof.
  intros Hbs.
  assert (Hnz : batch_size cfg <> 0%Z) by lia.
  unfold int_div. rewrite (proj2 (Z.eqb_neq _ _) Hnz).
  split; [reflexivity|]. split; [reflexivity|].
  split; [intros cost st; apply epoch_drops_remainder; exact Hbs|].
  destruct (select_cost cfg) as [calls cost|status] eqn:Hsel.
  - destruct (test_mlp_return cfg calls cost Hnz Hsel) as (Hrun & _).
    rewrite Hrun. split.
    + apply (test_mlp_history_length cfg). exact Hrun.
    + apply (test_mlp_history_Forall _ cfg); [|exact Hrun].
      intros cost' st. apply epoch_drops_remainder. exact Hbs.
  - rewrite (test_mlp_exit cfg status Hnz Hsel). reflexivity.
Qed.

End BoundedDraws.

(** *** The batch size is not checked *)

Lemma inv_dof_one : inv_dof 1 = Inf false.
Proof.
  unfold inv_dof, of_int. simpl.
  rewrite (Rzero_true 0) by reflexivity.
  rewrite (Rzero_false 1) by lra. rewrite (Rneg_false 1) by lra. reflexivity.
Qed.

Lemma single_row_covariance (M : matrix) (j k : nat) :
  nrows M = 1 -> finite M -> j < ncols M -> k < ncols M ->
  entry (covariance_of M) j k = NaN.
Proof.
  intros Hm Hfin Hj Hk. rewrite covariance_entry. unfold shape0.
  rewrite Hm. change (Z.of_nat 1) with 1%Z. rewrite inv_dof_one.
  cbn [fsum]. rewrite !(centered_fin M Hfin) by lia.
  unfold column_mean. rewrite Hm. simpl.
  rewrite Rzero_true; [reflexivity|]. field.
Qed.

Lemma single_row_penalties (self : MLP) :
  nrows (hiddenLayer_output self) = 1 ->
  0 < ncols (hiddenLayer_output self) ->
  finite (hiddenLayer_output self) ->
  off_diag_cov_sqr (set_covariance self) = Some NaN
  /\ off_diag_cor_sqr (set_correlation self) = Some NaN.
Proof.
  intros Hm Hn Hfin. split.
  - rewrite set_covariance_result, off_diagonal_sum_sqr. f_equal.
    change (nrows (covariance_of (hiddenLayer_output self)))
      with (ncols (hiddenLayer_output self)).
    change (ncols (covariance_of (hiddenLayer_output self)))
      with (ncols (hiddenLayer_output self)).
    rewrite (fsum_nan (ncols (hiddenLayer_output self)) 0);
      [reflexivity | exact Hn |].
    apply (fsum_nan (ncols (hiddenLayer_output self)) 0); [exact Hn|].
    rewrite single_row_covariance by assumption. reflexivity.
  - rewrite set_correlation_result. f_equal.
    apply (constant_column_penalty _ 0
             (real (entry (hiddenLayer_output self) 0 0)) Hn).
    intros i Hi. assert (i = 0) as -> by lia.
    apply fin_entry; [exact Hfin | lia | exact Hn].
Qed.

Lemma epoch_of_batch_one (cfg : config) (cost : cost_expr)
    (st : loop_state Rng) :
  batch_size cfg = 1%Z ->
  let r := fst (epoch_of (fixed cfg cost) st) in
  length (e_train_rows r) = n_train
  /\ concat (e_train_rows r) = e_index_perm r
  /\ Forall (fun c => length c = 1) (e_train_rows r).
Proof.
  intros Hbs. cbv zeta. set (r := fst (epoch_of (fixed cfg cost) st)).
  destruct (train_epoch_record (fixed cfg cost) st)
    as (_ & Hperm & _ & Htr & _).
  fold r in Hperm, Htr. cbn [setup_of s_batch_size n_train_batches] in Htr.
  rewrite Hbs, Z.div_1_r in Htr. unfold train_rows in Htr.
  assert (Hlen : length (e_index_perm r) = n_train)
    by (rewrite Hperm; apply permutation_length).
  destruct (batches_of_chunks (e_index_perm r) 1 n_train) as (H1 & H2 & H3).
  change (Z.of_nat 1) with 1%Z in H1, H2, H3.
  rewrite <- Htr in H1, H2, H3. split; [exact H1|]. split.
  - rewrite H2, Nat.mul_1_r, <- Hlen. apply firstn_all.
  - apply H3. lia.
Qed.

(** C5, amended.  [test_mlp] does not check the batch size.  A batch size of
    0 stops the call at the division that computes the batch counts, before
    the model is built.  Every other batch size, 1 included, passes: unless
    both penalty weights are nonzero, the training functions are built and
    all [n_epochs] epochs run.  With a batch size of 1 every example of the
    training set is a minibatch of its own, and on a batch of one row both
    penalties are NaN: the degenerate batch size shows during training. *)
Theorem batch_size_is_not_checked (cfg : config) :
  (batch_size cfg = 0%Z ->
   run default_timer cfg = ([EvLoadData], ZeroDivisionError))
  /\ (batch_size cfg <> 0%Z ->
      ne0 (cov_reg cfg) && ne0 (cor_reg cfg) = false ->
      exists final,
        snd (run default_timer cfg) = Return final
        /\ In EvCompileTrain (fst (run default_timer cfg))
        /\ length (history final) = Z.to_nat (n_epochs cfg))
  /\ (batch_size cfg = 1%Z ->
      forall final,
        snd (run default_timer cfg) = Return final ->
        Forall (fun r => length (e_train_rows r) = n_train
                         /\ concat (e_train_rows r) = e_index_perm r
                         /\ Forall (fun c => length c = 1) (e_train_rows r))
               (history final))
  /\ (forall self,
        nrows (hiddenLayer_output self) = 1 ->
        0 < ncols (hiddenLayer_output self) ->
        finite (hiddenLayer_output self) ->
        off_diag_cov_sqr (set_covariance self) = Some NaN
        /\ off_diag_cor_sqr (set_correlation self) = Some NaN).
Proof.
  split; [apply test_mlp_zero_batch|].
  split; [|split; [|exact single_row_penalties]].
  - intros Hnz Hw.
    destruct (proj2 (select_cost_cases cfg) Hw) as (calls & cost & Hsel & _).
    destruct (test_mlp_return cfg calls cost Hnz Hsel) as (Hrun & Hin & _).
    exists (loop (fixed cfg cost) (start cfg)). split; [exact Hrun|].
    split; [exact Hin|]. apply (test_mlp_history_length cfg). exact Hrun.
  - intros Hbs final Hret.
    apply (test_mlp_history_Forall _ cfg final); [|exact Hret].
    intros cost st. apply epoch_of_batch_one. exact Hbs.
Qed.

End Clock.

(** *** The clock *)

(** X18. What [timeit.default_timer()] reads has no part in the training:
    two calls of [test_mlp] that differ in the readings of the clock only end
    the same way, with the same parameters after every epoch, the same
    validation error of every epoch and the same best-model record, and the
    same effects in the same order but for the two readings of the timer and
    the duration printed at the end. *)
Theorem runs_differ_only_in_timing (clock clock' : nat -> float)
    (cfg : config) :
  snd (run clock cfg) = snd (run clock' cfg)
  /\ filter untimed (fst (run clock cfg))
     = filter untimed (fst (run clock' cfg))
  /\ (forall final final',
        snd (run clock cfg) = Return final ->
        snd (run clock' cfg) = Return final' ->
        map e_params (history final) = map e_params (history final')
        /\ map e_validation_loss (history final)
           = map e_validation_loss (history final')
        /\ map e_index_perm (history final)
           = map e_index_perm (history final')
        /\ best_validation_loss final = best_validation_loss final'
        /\ best_epoch final = best_epoch final')
  /\ (forall calls cost,
        batch_size cfg <> 0%Z -> select_cost cfg = Cost calls cost ->
        snd (run clock cfg) = Return (loop (fixed cfg cost) (start cfg))
        /\ rng (start cfg)
           = snd (init_params (n_hidden cfg) (RandomState (rand_seed cfg)))).
Proof.
  assert (Hsame : snd (run clock cfg) = snd (run clock' cfg)
                  /\ filter untimed (fst (run clock cfg))
                     = filter untimed (fst (run clock' cfg))).
  { destruct (Z.eq_dec (batch_size cfg) 0) as [Hz|Hnz].
    - rewrite !(test_mlp_zero_batch _ cfg Hz). split; reflexivity.
    - destruct (select_cost cfg) as [calls cost|status] eqn:Hsel.
      + destruct (test_mlp_return clock cfg calls cost Hnz Hsel)
          as (-> & _ & ->).
        destruct (test_mlp_return clock' cfg calls cost Hnz Hsel)
          as (-> & _ & ->).
        split; reflexivity.
      + rewrite !(test_mlp_exit _ cfg status Hnz Hsel). split; reflexivity. }
  destruct Hsame as [Hout Htrace].
  split; [exact Hout|]. split; [exact Htrace|]. split.
  - intros final final' H H'. rewrite Hout, H' in H.
    injection H as ->. repeat split; reflexivity.
  - intros calls cost Hnz Hsel. split.
    + apply (test_mlp_return clock cfg calls cost Hnz Hsel).
    + unfold initial_state.
      destruct (init_params (n_hidden cfg) (RandomState (rand_seed cfg)));
        reflexivity.
Qed.

End TrainingProofs.

(** ** The loop theorems on the toy back end *)

Lemma counter_interval_le (m s : nat) : fst (counter_interval m s) <= m.
Proof.
  simpl. pose proof (Nat.mod_upper_bound s (m + 1) ltac:(lia)). lia.
Qed.

Lemma zero_weight : eq0 (Fin 0) = true.
Proof. apply Rzero_true. reflexivity. Qed.

Lemma nonzero_weight : ne0 (Fin 0.1) = true.
Proof. unfold ne0, eq0. rewrite Rzero_false by lra. reflexivity. Qed.

Lemma select_cost_batch_one :
  select_cost config_batch_one = Cost [] (base_cost config_batch_one).
Proof.
  unfold select_cost, config_batch_one at 1 2. cbn [cov_reg cor_reg].
  rewrite zero_weight. reflexivity.
Qed.

(** C5, as stated, fails: called with [batch_size=1] and [n_epochs=1] on five
    training examples, [test_mlp] is not stopped at startup.  The training
    function is compiled, the epoch runs on five minibatches of one example
    each, and the call returns. *)
Lemma batch_size_one_is_trained_on :
  exists final r,
    snd (toy_test_mlp config_batch_one) = Return final
    /\ In EvCompileTrain (fst (toy_test_mlp config_batch_one))
    /\ history final = [r]
    /\ e_index_perm r = [2; 1; 0; 3; 4]
    /\ e_train_rows r = [[2]; [1]; [0]; [3]; [4]].
Proof.
  assert (Hnz : batch_size config_batch_one <> 0%Z) by (simpl; lia).
  destruct (test_mlp_return nat Z.to_nat counter_interval 5 3 toy_init
              toy_grad toy_errors toy_timer config_batch_one [] _ Hnz
              select_cost_batch_one) as (Hrun & Hin & _).
  eexists. eexists. split; [exact Hrun|]. split; [exact Hin|].
  unfold while_loop. simpl Z.to_nat. cbn [run_epochs].
  destruct (one_epoch_state nat counter_interval 5 3 toy_grad toy_errors
              (setup_of 5 3 config_batch_one (base_cost config_batch_one))
              (initial_state nat Z.to_nat toy_init config_batch_one))
    as (_ & _ & _ & Hh & _).
  destruct (train_epoch_record nat counter_interval 5 3 toy_grad toy_errors
              (setup_of 5 3 config_batch_one (base_cost config_batch_one))
              (initial_state nat Z.to_nat toy_init config_batch_one))
    as (_ & Hperm & _ & Htr & _).
  cbv zeta in Hh, Hperm, Htr. split; [exact Hh|].
  assert (Hp : e_index_perm
                 (fst (train_epoch nat counter_interval 5 3 toy_grad
                         toy_errors
                         (setup_of 5 3 config_batch_one
                                   (base_cost config_batch_one))
                         (initial_state nat Z.to_nat toy_init
                                        config_batch_one)))
               = [2; 1; 0; 3; 4]).
  { rewrite Hperm. vm_compute. reflexivity. }
  split; [exact Hp|]. rewrite Htr, Hp. vm_compute. reflexivity.
Qed.

Lemma regularization_weights_are_exclusive_witness :
  toy_test_mlp config_both
  = ([EvLoadData; EvPrint MsgBuilding; EvRandomState 1234; EvBuildModel;
      EvPrint MsgCannotUseBoth], Exit 1).
Proof.
  apply (regularization_weights_are_exclusive nat Z.to_nat counter_interval
           5 3 toy_init toy_grad toy_errors toy_timer config_both).
  - unfold config_both. cbn [cov_reg cor_reg].
    rewrite nonzero_weight. reflexivity.
  - simpl. lia.
Defined.

Lemma batch_size_is_not_checked_witness :
  exists final,
    snd (toy_test_mlp config_batch_one) = Return final
    /\ In EvCompileTrain (fst (toy_test_mlp config_batch_one))
    /\ length (history final) = 1.
Proof.
  apply (batch_size_is_not_checked nat Z.to_nat counter_interval 5 3 toy_init
           toy_grad toy_errors toy_timer config_batch_one).
  - simpl. lia.
  - unfold config_batch_one. cbn [cov_reg cor_reg]. unfold ne0.
    rewrite zero_weight. reflexivity.
Defined.

Lemma every_epoch_draws_a_bijection_witness :
  match snd (toy_test_mlp config_batch_one) with
  | Return final =>
      length (history final) = 1
      /\ Forall (fun r => bijection 5 (e_index_perm r)) (history final)
  | _ => True
  end.
Proof.
  apply (every_epoch_draws_a_bijection nat Z.to_nat counter_interval 5 3
           toy_init toy_grad toy_errors toy_timer counter_interval_le
           (setup_of 5 3 config_batch_one (base_cost config_batch_one))
           (initial_state nat Z.to_nat toy_init config_batch_one)
           config_batch_one).
Defined.


Lemma remainder_examples_are_dropped_witness :
  (0 < batch_size config_batch_two)%Z
  /\ exists final r,
       snd (toy_test_mlp config_batch_two) = Return final
       /\ history final = [r]
       /\ drops_remainder 5 3 toy_errors 2 r
       /\ e_index_perm r = [2; 1; 0; 3; 4]
       /\ e_train_rows r = [[2; 1]; [0; 3]]
       /\ e_valid_rows r = [[0; 1]].
Proof.
  assert (Hbs : (0 < batch_size config_batch_two)%Z) by (simpl; lia).
  split; [exact Hbs|].
  destruct (remainder_examples_are_dropped nat Z.to_nat counter_interval 5 3
              toy_init toy_grad toy_errors toy_timer counter_interval_le
              config_batch_two Hbs) as (_ & _ & _ & Hall).
  assert (Hnz : batch_size config_batch_two <> 0%Z) by (simpl; lia).
  assert (Hsel : select_cost config_batch_two
                 = Cost [] (base_cost config_batch_two)).
  { unfold select_cost, config_batch_two at 1 2. cbn [cov_reg cor_reg].
    rewrite zero_weight. reflexivity. }
  destruct (test_mlp_return nat Z.to_nat counter_interval 5 3 toy_init
              toy_grad toy_errors toy_timer config_batch_two [] _ Hnz Hsel)
    as (Hrun & _).
  unfold toy_test_mlp. rewrite Hrun in Hall. destruct Hall as [_ Hall].
  eexists. eexists. split; [exact Hrun|].
  unfold while_loop in Hall |- *. simpl Z.to_nat in Hall |- *.
  change (Pos.to_nat 1) with 1 in Hall. cbn [run_epochs] in Hall |- *.
  destruct (one_epoch_state nat counter_interval 5 3 toy_grad toy_errors
              (setup_of 5 3 config_batch_two (base_cost config_batch_two))
              (initial_state nat Z.to_nat toy_init config_batch_two))
    as (_ & _ & _ & Hh & _).
  destruct (train_epoch_record nat counter_interval 5 3 toy_grad toy_errors
              (setup_of 5 3 config_batch_two (base_cost config_batch_two))
              (initial_state nat Z.to_nat toy_init config_batch_two))
    as (_ & Hperm & _ & Htr & Hva & _).
  cbv zeta in Hh, Hperm, Htr, Hva. split; [exact Hh|].
  rewrite Hh in Hall. apply Forall_app in Hall. destruct Hall as [_ Hall].
  split; [exact (Forall_inv Hall)|].
  assert (Hp : e_index_perm
                 (fst (train_epoch nat counter_interval 5 3 toy_grad
                         toy_errors
                         (setup_of 5 3 config_batch_two
                                   (base_cost config_batch_two))
                         (initial_state nat Z.to_nat toy_init
                                        config_batch_two)))
               = [2; 1; 0; 3; 4]).
  { rewrite Hperm. vm_compute. reflexivity. }
  split; [exact Hp|]. split.
  - rewrite Htr, Hp. vm_compute. reflexivity.
  - rewrite Hva. vm_compute. reflexivity.
Defined.

(** * Further properties of mlp.py *)

(** ** The covariance matrix is symmetric *)

Lemma fmul_comm (a b : float) : fmul a b = fmul b a.
Proof.
  destruct a as [x|s|], b as [y|t|]; simpl; try reflexivity.
  - rewrite Rmult_comm. reflexivity.
  - destruct (Rzero x); [reflexivity|]. rewrite xorb_comm. reflexivity.
  - destruct (Rzero y); [reflexivity|]. rewrite xorb_comm. reflexivity.
  - rewrite xorb_comm. reflexivity.
Qed.

Lemma covariance_symmetric (M : matrix) (j k : nat) :
  entry (covariance_of M) j k = entry (covariance_of M) k j.
Proof.
  rewrite !covariance_entry. f_equal. apply fsum_ext.
  intros i _. apply fmul_comm.
Qed.

Lemma sample_covariance_sym (M : matrix) (j k : nat) :
  sample_covariance M j k = sample_covariance M k j.
Proof.
  unfold sample_covariance. f_equal. apply Rsum_ext. intros i _. ring.
Qed.

(** X1. The covariance matrix that [set_correlation] stores is symmetric for
    every batch, which is what the comment on the line computing
    [activation_correlation] relies on: the entry [(j, k)] of
    [(inv_std_vec * cov).T * inv_std_vec] is
    [inv_std_vec[j] * cov[j][k] * inv_std_vec[k]]. *)
Theorem correlation_formula_uses_symmetry (self : MLP) :
  match activation_covariance (set_correlation self),
        inv_std_vec (set_correlation self),
        activation_correlation (set_correlation self) with
  | Some cov, Some s, Some cor =>
      (forall j k, entry cov j k = entry cov k j)
      /\ (forall j k, entry cor j k
                      = fmul (fmul (vget s j) (entry cov j k)) (vget s k))
  | _, _, _ => False
  end.
Proof.
  simpl. split.
  - intros j k.
    apply (covariance_symmetric (hiddenLayer_output self) j k).
  - intros j k.
    change (entry (correlation_of (hiddenLayer_output self)) j k
            = fmul (fmul (vget (inv_std_of (hiddenLayer_output self)) j)
                         (entry (covariance_of (hiddenLayer_output self)) j k))
                   (vget (inv_std_of (hiddenLayer_output self)) k)).
    rewrite correlation_entry, (covariance_symmetric _ k j). reflexivity.
Qed.

(** ** Sums of non-negative reals *)

Lemma Rsum_nonneg (n : nat) (f : nat -> R) :
  (forall i, i < n -> (0 <= f i)%R) -> (0 <= Rsum n f)%R.
Proof.
  induction n as [|n IH]; intros H; simpl; [lra|].
  pose proof (IH (fun i Hi => H i (Nat.lt_lt_succ_r _ _ Hi))).
  pose proof (H n (Nat.lt_succ_diag_r n)). lra.
Qed.

Lemma Rsum_zero_iff (n : nat) (f : nat -> R) :
  (forall i, i < n -> (0 <= f i)%R) ->
  Rsum n f = 0%R <-> (forall i, i < n -> f i = 0%R).
Proof.
  induction n as [|n IH]; intros H; simpl.
  - split; [intros _ i Hi; lia | reflexivity].
  - assert (Hn : forall i, i < n -> (0 <= f i)%R) by (intros; apply H; lia).
    pose proof (Rsum_nonneg n f Hn) as Hs.
    pose proof (H n (Nat.lt_succ_diag_r n)) as Hl. split.
    + intros Hz i Hi. destruct (Nat.eq_dec i n) as [->|Hne]; [lra|].
      apply (proj1 (IH Hn)); [lra | lia].
    + intros Hz. rewrite (proj2 (IH Hn)) by (intros; apply Hz; lia).
      rewrite (Hz n) by lia. lra.
Qed.

Lemma square_nonneg (x : R) : (0 <= x * x)%R.
Proof. pose proof (Rle_0_sqr x) as H. unfold Rsqr in H. exact H. Qed.

(** ** The norms of [MLP.__init__] *)

Lemma msum_fin (M : matrix) :
  finite M ->
  msum M = Fin (Rsum (nrows M)
                  (fun i => Rsum (ncols M) (fun j => real (entry M i j)))).
Proof.
  intros Hfin. unfold msum. rewrite <- fsum_fin. apply fsum_ext.
  intros i Hi. rewrite <- fsum_fin. apply fsum_ext. intros j Hj.
  apply fin_entry; assumption.
Qed.

Lemma mabs_finite (M : matrix) : finite M -> finite (mabs M).
Proof.
  intros Hfin i j Hi Hj. simpl in *.
  rewrite (fin_entry M Hfin i j Hi Hj). reflexivity.
Qed.

Lemma msqr_finite (M : matrix) : finite M -> finite (msqr M).
Proof.
  intros Hfin i j Hi Hj. simpl in *.
  rewrite (fin_entry M Hfin i j Hi Hj). reflexivity.
Qed.

Lemma Rsum2_nonneg (m n : nat) (f : nat -> nat -> R) :
  (forall i j, i < m -> j < n -> (0 <= f i j)%R) ->
  (0 <= Rsum m (fun i => Rsum n (f i)))%R.
Proof.
  intros H. apply Rsum_nonneg. intros i Hi. apply Rsum_nonneg.
  intros j Hj. apply H; assumption.
Qed.

Lemma Rsum2_zero_iff (m n : nat) (f : nat -> nat -> R) :
  (forall i j, i < m -> j < n -> (0 <= f i j)%R) ->
  Rsum m (fun i => Rsum n (f i)) = 0%R
  <-> (forall i j, i < m -> j < n -> f i j = 0%R).
Proof.
  intros H.
  rewrite Rsum_zero_iff
    by (intros i Hi; apply Rsum_nonneg; intros j Hj; apply H; assumption).
  split.
  - intros Hz i j Hi Hj. specialize (Hz i Hi).
    rewrite Rsum_zero_iff in Hz by (intros; apply H; assumption).
    apply Hz. exact Hj.
  - intros Hz i Hi. apply Rsum_zero_iff; [intros; apply H; assumption|].
    intros j Hj. apply Hz; assumption.
Qed.

Section Norms.

Variable W : matrix.
Hypothesis W_finite : finite W.

Lemma abs_sum_value :
  msum (mabs W)
  = Fin (Rsum (nrows W)
           (fun i => Rsum (ncols W) (fun j => Rabs (real (entry W i j))))).
Proof.
  rewrite (msum_fin _ (mabs_finite W W_finite)).
  change (nrows (mabs W)) with (nrows W).
  change (ncols (mabs W)) with (ncols W).
  f_equal. apply Rsum_ext. intros i Hi. apply Rsum_ext. intros j Hj.
  simpl. rewrite (fin_entry W W_finite i j Hi Hj). reflexivity.
Qed.

Lemma sqr_sum_value :
  msum (msqr W)
  = Fin (Rsum (nrows W)
           (fun i => Rsum (ncols W)
                       (fun j => real (entry W i j) * real (entry W i j))))%R.
Proof.
  rewrite (msum_fin _ (msqr_finite W W_finite)).
  change (nrows (msqr W)) with (nrows W).
  change (ncols (msqr W)) with (ncols W).
  f_equal. apply Rsum_ext. intros i Hi. apply Rsum_ext. intros j Hj.
  simpl. rewrite (fin_entry W W_finite i j Hi Hj). reflexivity.
Qed.

Lemma abs_sum_zero :
  Rsum (nrows W)
    (fun i => Rsum (ncols W) (fun j => Rabs (real (entry W i j)))) = 0%R
  <-> all_zero W.
Proof.
  rewrite Rsum2_zero_iff by (intros; apply Rabs_pos). unfold all_zero.
  split; intros H i j Hi Hj.
  - rewrite (fin_entry W W_finite i j Hi Hj). f_equal.
    specialize (H i j Hi Hj).
    destruct (Req_dec_T (real (entry W i j)) 0) as [E|E]; [exact E|].
    apply Rabs_no_R0 in E. contradiction.
  - rewrite (H i j Hi Hj). simpl. apply Rabs_R0.
Qed.

Lemma sqr_sum_zero :
  Rsum (nrows W)
    (fun i => Rsum (ncols W)
                (fun j => real (entry W i j) * real (entry W i j)))%R = 0%R
  <-> all_zero W.
Proof.
  rewrite Rsum2_zero_iff by (intros; apply square_nonneg). unfold all_zero.
  split; intros H i j Hi Hj.
  - rewrite (fin_entry W W_finite i j Hi Hj). f_equal.
    destruct (Rmult_integral _ _ (H i j Hi Hj)); assumption.
  - rewrite (H i j Hi Hj). simpl. ring.
Qed.

End Norms.

(** X5. For finite weight matrices, [L1] and [L2_sqr] of [MLP.__init__] are
    never negative and never a NaN; [L1] is zero exactly when every weight of
    both layers is zero, and [L2_sqr] is zero when every weight is zero. *)
Theorem norms_are_nonnegative (hidden_W logreg_W : matrix) :
  finite hidden_W -> finite logreg_W ->
  flt (MLP_L1 hidden_W logreg_W) (Fin 0) = false
  /\ MLP_L1 hidden_W logreg_W <> NaN
  /\ (MLP_L1 hidden_W logreg_W = Fin 0
      <-> all_zero hidden_W /\ all_zero logreg_W)
  /\ flt (MLP_L2_sqr hidden_W logreg_W) (Fin 0) = false
  /\ MLP_L2_sqr hidden_W logreg_W <> NaN
  /\ (all_zero hidden_W /\ all_zero logreg_W ->
      MLP_L2_sqr hidden_W logreg_W = Fin 0).
Proof.
  intros H1 H2. unfold MLP_L1, MLP_L2_sqr.
  rewrite (abs_sum_value _ H1), (abs_sum_value _ H2),
          (sqr_sum_value _ H1), (sqr_sum_value _ H2).
  set (a1 := Rsum (nrows hidden_W) _). set (a2 := Rsum (nrows logreg_W) _).
  set (b1 := Rsum (nrows hidden_W) _). set (b2 := Rsum (nrows logreg_W) _).
  assert (Ha1 : (0 <= a1)%R) by (apply Rsum2_nonneg; intros; apply Rabs_pos).
  assert (Ha2 : (0 <= a2)%R) by (apply Rsum2_nonneg; intros; apply Rabs_pos).
  assert (Hb1 : (0 <= b1)%R)
    by (apply Rsum2_nonneg; intros; apply square_nonneg).
  assert (Hb2 : (0 <= b2)%R)
    by (apply Rsum2_nonneg; intros; apply square_nonneg).
  pose proof (abs_sum_zero _ H1) as Z1. pose proof (abs_sum_zero _ H2) as Z2.
  pose proof (sqr_sum_zero _ H1) as Q1. pose proof (sqr_sum_zero _ H2) as Q2.
  fold a1 in Z1. fold a2 in Z2. fold b1 in Q1. fold b2 in Q2.
  cbn [fadd flt].
  split; [destruct (Rlt_dec (a1 + a2) 0); [lra | reflexivity]|].
  split; [discriminate|]. split; [split|].
  - intros H. injection H as H. split; [apply Z1 | apply Z2]; lra.
  - intros [Hh Hl]. apply Z1 in Hh. apply Z2 in Hl. f_equal. lra.
  - split; [destruct (Rlt_dec (b1 + b2) 0); [lra | reflexivity]|].
    split; [discriminate|].
    intros [Hh Hl]. apply Q1 in Hh. apply Q2 in Hl. f_equal. lra.
Qed.

Lemma weights_example_finite : finite weights_example.
Proof.
  intros i j _ _. simpl. destruct i as [|i], j as [|j]; reflexivity.
Qed.

Lemma norms_are_nonnegative_witness :
  flt (MLP_L1 weights_example weights_example) (Fin 0) = false
  /\ MLP_L1 weights_example weights_example <> NaN
  /\ (MLP_L1 weights_example weights_example = Fin 0
      <-> all_zero weights_example /\ all_zero weights_example)
  /\ flt (MLP_L2_sqr weights_example weights_example) (Fin 0) = false
  /\ MLP_L2_sqr weights_example weights_example <> NaN
  /\ (all_zero weights_example /\ all_zero weights_example ->
      MLP_L2_sqr weights_example weights_example = Fin 0).
Proof.
  apply (norms_are_nonnegative weights_example weights_example);
    exact weights_example_finite.
Defined.

(** ** [get_correlation] *)

Lemma set_correlation_idempotent (self : MLP) :
  set_correlation (set_correlation self) = set_correlation self.
Proof. reflexivity. Qed.

(** X6. [get_correlation] never fills in a correlation matrix that is
    missing: on an object on which the attribute was never assigned (as
    [__init__] leaves it) it raises [AttributeError] and leaves the object
    alone.  After [set_correlation] it leaves the object as it is and, unless
    the truth test itself raises, returns the correlation matrix of the
    batch, whether or not it runs [set_correlation] again.  When it returns a
    matrix, that matrix is the one stored in the object. *)
Theorem get_correlation_is_not_lazy (truth : matrix -> option bool)
    (self : MLP) :
  (activation_correlation self = None ->
   get_correlation truth self = (self, Raise AttributeError))
  /\ (get_correlation truth (set_correlation self)
      = (set_correlation self, Raise TypeError)
      \/ get_correlation truth (set_correlation self)
         = (set_correlation self,
            Value (correlation_of (hiddenLayer_output self))))
  /\ (forall r,
        snd (get_correlation truth self) = Value r ->
        activation_correlation (fst (get_correlation truth self)) = Some r).
Proof.
  split; [|split].
  - intros H. unfold get_correlation. rewrite H. reflexivity.
  - unfold get_correlation. rewrite set_correlation_matrix.
    destruct (truth (correlation_of (hiddenLayer_output self))) as [[|]|].
    + right. reflexivity.
    + right. rewrite set_correlation_idempotent, set_correlation_matrix.
      reflexivity.
    + left. reflexivity.
  - intros r. unfold get_correlation.
    destruct (activation_correlation self) as [c|] eqn:E; [|discriminate].
    destruct (truth c) as [[|]|]; simpl.
    + intros H. injection H as <-. exact E.
    + intros H. injection H as <-. reflexivity.
    + discriminate.
Qed.

(** ** The cost of the valid configurations *)

Lemma eq0_fin (w : R) : eq0 (Fin w) = Rzero w.
Proof. reflexivity. Qed.

(** X7. For finite weights of which at most one penalty weight is nonzero,
    the three cost branches of [test_mlp] agree with one formula: on finite
    values the cost is [nll + L1_reg * L1 + L2_reg * L2_sqr
    + cov_reg * off_diag_cov_sqr + cor_reg * off_diag_cor_sqr], the penalty
    that was left out having weight zero.  With weights and regularisation
    terms that are not negative, the cost is at least the negative
    log-likelihood. *)
Theorem cost_is_the_weighted_sum (cfg : config) (v : quantity -> R)
    (l1 l2 wcov wcor : R) :
  L1_reg cfg = Fin l1 -> L2_reg cfg = Fin l2 ->
  cov_reg cfg = Fin wcov -> cor_reg cfg = Fin wcor ->
  wcov = 0%R \/ wcor = 0%R ->
  exists calls cost,
    select_cost cfg = Cost calls cost
    /\ cost_value (fun q => Fin (v q)) cost
       = Fin (v NegLogLikelihood + l1 * v L1 + l2 * v L2_sqr
              + wcov * v OffDiagCovSqr + wcor * v OffDiagCorSqr)
    /\ ((0 <= l1)%R -> (0 <= l2)%R -> (0 <= wcov)%R -> (0 <= wcor)%R ->
        (0 <= v L1)%R -> (0 <= v L2_sqr)%R ->
        (0 <= v OffDiagCovSqr)%R -> (0 <= v OffDiagCorSqr)%R ->
        (v NegLogLikelihood
         <= v NegLogLikelihood + l1 * v L1 + l2 * v L2_sqr
            + wcov * v OffDiagCovSqr + wcor * v OffDiagCorSqr)%R).
Proof.
  intros H1 H2 Hcov Hcor Hone.
  assert (Hbound :
    (0 <= l1)%R -> (0 <= l2)%R -> (0 <= wcov)%R -> (0 <= wcor)%R ->
    (0 <= v L1)%R -> (0 <= v L2_sqr)%R ->
    (0 <= v OffDiagCovSqr)%R -> (0 <= v OffDiagCorSqr)%R ->
    (v NegLogLikelihood
     <= v NegLogLikelihood + l1 * v L1 + l2 * v L2_sqr
        + wcov * v OffDiagCovSqr + wcor * v OffDiagCorSqr)%R).
  { intros. 
    pose proof (Rmult_le_pos l1 (v L1)). pose proof (Rmult_le_pos l2 (v L2_sqr)).
    pose proof (Rmult_le_pos wcov (v OffDiagCovSqr)).
    pose proof (Rmult_le_pos wcor (v OffDiagCorSqr)). lra. }
  unfold select_cost, ne0, base_cost. rewrite H1, H2, Hcov, Hcor, !eq0_fin.
  destruct (Req_dec_T wcov 0) as [Zc|Nc], (Req_dec_T wcor 0) as [Zr|Nr].
  - rewrite (Rzero_true wcov Zc), (Rzero_true wcor Zr). simpl.
    eexists. eexists. split; [reflexivity|]. split; [|exact Hbound].
    simpl. f_equal. rewrite Zc, Zr. ring.
  - rewrite (Rzero_true wcov Zc), (Rzero_false wcor Nr). simpl.
    eexists. eexists. split; [reflexivity|]. split; [|exact Hbound].
    simpl. f_equal. rewrite Zc. ring.
  - rewrite (Rzero_false wcov Nc), (Rzero_true wcor Zr). simpl.
    eexists. eexists. split; [reflexivity|]. split; [|exact Hbound].
    simpl. f_equal. rewrite Zr. ring.
  - destruct Hone; contradiction.
Qed.

Lemma cost_is_the_weighted_sum_witness :
  exists calls cost,
    select_cost default_config = Cost calls cost
    /\ cost_value (fun q => Fin 1) cost
       = Fin (1 + 0 * 1 + 0.0001 * 1 + 0 * 1 + 0 * 1).
Proof.
  destruct (cost_is_the_weighted_sum default_config (fun _ => 1%R)
              0 0.0001 0 0 eq_refl eq_refl eq_refl eq_refl
              (or_introl eq_refl))
    as (calls & cost & Hsel & Hval & _).
  exists calls, cost. split; [exact Hsel | exact Hval].
Defined.

(** ** More on the training loop *)

Lemma sgd_length (lr : float) (p g : param) :
  length g = length p -> length (sgd lr p g) = length p.
Proof.
  intros H. unfold sgd. rewrite length_map, length_combine. lia.
Qed.

Lemma sgd_zero_rate (p g : param) :
  Forall (fun x => is_fin x = true) p ->
  Forall (fun x => is_fin x = true) g ->
  length g = length p ->
  sgd (Fin 0) p g = p.
Proof.
  revert g. induction p as [|x p IH]; intros g Hp Hg Hlen.
  - reflexivity.
  - destruct g as [|y g]; [discriminate|].
    inversion Hp as [|? ? Hx Hp']; subst. inversion Hg as [|? ? Hy Hg']; subst.
    unfold sgd. cbn [combine map fst snd]. f_equal.
    + destruct x as [x| |]; try discriminate.
      destruct y as [y| |]; try discriminate.
      simpl. f_equal. ring.
    + apply IH; try assumption. simpl in Hlen. lia.
Qed.

Lemma sgd_zero_rate_not_finite (x g : float) :
  is_fin g = false -> sgd (Fin 0) [x] [g] = [NaN].
Proof.
  intros Hg. unfold sgd. simpl. f_equal.
  destruct g as [y|s|]; [discriminate| |].
  - simpl. rewrite (Rzero_true 0) by reflexivity. apply fsub_nan_r.
  - simpl. apply fsub_nan_r.
Qed.

Lemma same_shape_refl (ps : list param) : same_shape ps ps.
Proof. induction ps; constructor; [reflexivity | assumption]. Qed.

Lemma same_shape_trans (ps qs rs : list param) :
  same_shape ps qs -> same_shape qs rs -> same_shape ps rs.
Proof.
  intros H. revert rs. induction H as [|p q ps qs Hpq _ IH]; intros rs Hr.
  - inversion Hr. constructor.
  - inversion Hr as [|? r ? rs' Hqr Hrest]; subst. constructor.
    + congruence.
    + apply IH. assumption.
Qed.

Lemma same_shape_length (ps qs : list param) :
  same_shape ps qs -> length ps = length qs.
Proof. apply Forall2_length. Qed.

Section TrainingMore.

Variable Rng : Type.
Variable RandomState : Z -> Rng.
Variable rk_interval : nat -> Rng -> nat * Rng.
Variable n_train : nat.
Variable n_valid : nat.
Variable init_params : Z -> Rng -> list param * Rng.
Variable grad : cost_expr -> list nat -> list param -> nat -> param.
Variable errors : list nat -> list param -> float.
Variable default_timer : nat -> float.

Local Abbreviation epoch_of := (train_epoch Rng rk_interval n_train n_valid grad errors).
Local Abbreviation body := (one_epoch Rng rk_interval n_train n_valid grad errors).
Local Abbreviation iterate := (run_epochs Rng rk_interval n_train n_valid grad errors).
Local Abbreviation loop := (while_loop Rng rk_interval n_train n_valid grad errors).
Local Abbreviation start := (initial_state Rng RandomState init_params).
Local Abbreviation fixed := (setup_of n_train n_valid).
Local Abbreviation run :=
  (test_mlp Rng RandomState rk_interval n_train n_valid init_params grad errors
            default_timer).
Local Abbreviation first_params :=
  (fun cfg => fst (init_params (n_hidden cfg) (RandomState (rand_seed cfg)))).

Lemma train_epoch_params (su : setup) (st : loop_state Rng) :
  let r := fst (epoch_of su st) in
  e_params r
  = fold_left (fun ps rows =>
                 train_model grad (s_cost su) (s_learning_rate su) rows ps)
              (e_train_rows r) (params st).
Proof.
  unfold train_epoch.
  destruct (permutation Rng rk_interval n_train (rng st)) as [perm rng'].
  reflexivity.
Qed.

Lemma initial_state_params (cfg : config) :
  params (start cfg) = first_params cfg.
Proof.
  unfold initial_state.
  destruct (init_params (n_hidden cfg) (RandomState (rand_seed cfg))).
  reflexivity.
Qed.

(** What holds of the start state and is kept by every epoch holds when the
    call returns. *)
Lemma test_mlp_invariant (Inv : loop_state Rng -> Prop) (cfg : config)
    (final : loop_state Rng) :
  Inv (start cfg) ->
  (forall cost st, Inv st -> Inv (body (fixed cfg cost) st)) ->
  snd (run cfg) = Return final ->
  Inv final.
Proof.
  intros H0 Hstep Hret.
  destruct (Z.eq_dec (batch_size cfg) 0) as [Hz|Hnz].
  - rewrite (test_mlp_zero_batch _ RandomState rk_interval n_train n_valid
               init_params grad errors default_timer cfg Hz) in Hret.
    discriminate.
  - destruct (select_cost cfg) as [calls cost|status] eqn:Hsel.
    + destruct (test_mlp_return _ RandomState rk_interval n_train n_valid
                  init_params grad errors default_timer cfg calls cost
                  Hnz Hsel) as (Hrun & _).
      rewrite Hrun in Hret. injection Hret as <-.
      clear Hrun. unfold while_loop.
      generalize (Z.to_nat (s_n_epochs (fixed cfg cost)
                            - epoch (start cfg))).
      intros k. revert H0. generalize (start cfg).
      induction k as [|k IH]; intros st Hst; [exact Hst|].
      cbn [run_epochs]. apply IH. apply Hstep. exact Hst.
    + rewrite (test_mlp_exit _ RandomState rk_interval n_train n_valid
                 init_params grad errors default_timer cfg status Hnz Hsel)
        in Hret.
      discriminate.
Qed.

(** *** The shape of the parameters *)

Section GradientShape.

Hypothesis grad_shape :
  forall cost rows ps k,
    k < length ps -> length (grad cost rows ps k) = length (nth k ps []).

Lemma train_model_shape_from (cost : cost_expr) (lr : float)
    (rows : list nat) (all pre ps : list param) :
  all = pre ++ ps ->
  same_shape
    (map (fun pg => sgd lr (fst pg) (snd pg))
         (combine ps (map (grad cost rows all) (seq (length pre) (length ps)))))
    ps.
Proof.
  revert pre. induction ps as [|p ps IH]; intros pre Hall; [constructor|].
  cbn [length seq map combine fst snd]. constructor.
  - apply sgd_length. rewrite grad_shape.
    + rewrite Hall, nth_middle. reflexivity.
    + rewrite Hall, length_app. simpl. lia.
  - specialize (IH (pre ++ [p])).
    rewrite length_app in IH. simpl in IH.
    replace (length pre + 1) with (S (length pre)) in IH by lia.
    apply IH. rewrite Hall, <- app_assoc. reflexivity.
Qed.

Lemma train_model_shape (cost : cost_expr) (lr : float) (rows : list nat)
    (ps : list param) :
  same_shape (train_model grad cost lr rows ps) ps.
Proof. apply (train_model_shape_from cost lr rows ps [] ps). reflexivity. Qed.

Lemma epoch_shape (su : setup) (st : loop_state Rng) :
  same_shape (e_params (fst (epoch_of su st))) (params st).
Proof.
  rewrite train_epoch_params.
  generalize (e_train_rows (fst (epoch_of su st))). intros batches.
  generalize (params st). intros ps.
  revert ps. induction batches as [|rows batches IH]; intros ps.
  - apply same_shape_refl.
  - cbn [fold_left].
    apply (same_shape_trans _ _ _ (IH _)). apply train_model_shape.
Qed.

(** X8. When the gradient of every parameter has the shape of the parameter,
    the updates keep the parameter list in shape: after every epoch of a call
    of [test_mlp] that returns, and at the end, there are as many parameter
    tensors as [MLP(...)] created, each with as many entries. *)
Theorem parameters_keep_their_shape (cfg : config) :
  match snd (run cfg) with
  | Return final =>
      same_shape (params final) (first_params cfg)
      /\ length (params final) = length (first_params cfg)
      /\ Forall (fun r => same_shape (e_params r) (first_params cfg))
                (history final)
  | _ => True
  end.
Proof.
  destruct (snd (run cfg)) as [| |final] eqn:Hret; [exact I | exact I |].
  assert (H : same_shape (params final) (first_params cfg)
              /\ Forall (fun r => same_shape (e_params r) (first_params cfg))
                        (history final)).
  { apply (test_mlp_invariant
             (fun st => same_shape (params st) (first_params cfg)
                        /\ Forall (fun r => same_shape (e_params r)
                                                       (first_params cfg))
                                  (history st)) cfg final);
      [| |exact Hret].
    - rewrite initial_state_params.
      destruct (initial_state_fresh _ RandomState init_params cfg)
        as (_ & _ & _ & ->).
      split; [apply same_shape_refl | constructor].
    - intros cost st [Hp Hh].
      destruct (one_epoch_state _ rk_interval n_train n_valid grad errors
                  (fixed cfg cost) st) as (_ & _ & -> & -> & _).
      pose proof (same_shape_trans _ _ _ (epoch_shape (fixed cfg cost) st) Hp)
        as Hnew.
      split; [exact Hnew|]. apply Forall_app. split; [exact Hh|].
      constructor; [exact Hnew | constructor]. }
  destruct H as [Hp Hh]. split; [exact Hp|].
  split; [apply same_shape_length; exact Hp | exact Hh].
Qed.

End GradientShape.

(** *** A learning rate of zero *)

Section FiniteGradients.

Hypothesis grad_finite :
  forall cost rows ps k,
    finite_params ps -> k < length ps ->
    Forall (fun x => is_fin x = true) (grad cost rows ps k)
    /\ length (grad cost rows ps k) = length (nth k ps []).

Lemma train_model_zero_rate_from (cost : cost_expr) (rows : list nat)
    (all pre ps : list param) :
  all = pre ++ ps -> finite_params all ->
  map (fun pg => sgd (Fin 0) (fst pg) (snd pg))
      (combine ps (map (grad cost rows all) (seq (length pre) (length ps))))
  = ps.
Proof.
  revert pre. induction ps as [|p ps IH]; intros pre Hall Hfin;
    [reflexivity|].
  cbn [length seq map combine fst snd]. f_equal.
  - destruct (grad_finite cost rows all (length pre) Hfin) as [Hg Hlen].
    { rewrite Hall, length_app. simpl. lia. }
    assert (Hnth : nth (length pre) all [] = p)
      by (rewrite Hall; apply nth_middle).
    rewrite Hnth in Hlen. apply sgd_zero_rate.
    + assert (Hin : In p all)
        by (rewrite Hall; apply in_or_app; right; left; reflexivity).
      unfold finite_params in Hfin. rewrite Forall_forall in Hfin.
      exact (Hfin p Hin).
    + exact Hg.
    + exact Hlen.
  - specialize (IH (pre ++ [p])).
    rewrite length_app in IH. simpl in IH.
    replace (length pre + 1) with (S (length pre)) in IH by lia.
    apply IH; [|exact Hfin]. rewrite Hall, <- app_assoc. reflexivity.
Qed.

Lemma train_model_zero_rate (cost : cost_expr) (rows : list nat)
    (ps : list param) :
  finite_params ps -> train_model grad cost (Fin 0) rows ps = ps.
Proof.
  intros Hfin.
  apply (train_model_zero_rate_from cost rows ps [] ps eq_refl Hfin).
Qed.

Lemma epoch_zero_rate (su : setup) (st : loop_state Rng) :
  s_learning_rate su = Fin 0 -> finite_params (params st) ->
  e_params (fst (epoch_of su st)) = params st.
Proof.
  intros Hlr Hfin. rewrite train_epoch_params, Hlr.
  generalize (e_train_rows (fst (epoch_of su st))). intros batches.
  induction batches as [|rows batches IH]; [reflexivity|].
  cbn [fold_left]. rewrite train_model_zero_rate by exact Hfin. exact IH.
Qed.

(** X9. With [learning_rate = 0], finite initial parameters and gradients
    that are finite and of the shape of their parameter, no update changes a
    parameter: after every epoch and at the end the parameters are the ones
    [MLP(...)] created.  The rate does not shield the parameters from a
    gradient that is not finite: [p - 0 * g] is a NaN when [g] is an
    infinity or a NaN. *)
Theorem zero_learning_rate_freezes_parameters (cfg : config) :
  learning_rate cfg = Fin 0 ->
  finite_params (first_params cfg) ->
  match snd (run cfg) with
  | Return final =>
      params final = first_params cfg
      /\ Forall (fun r => e_params r = first_params cfg) (history final)
  | _ => True
  end
  /\ (forall x g, is_fin g = false -> sgd (Fin 0) [x] [g] = [NaN]).
Proof.
  intros Hlr Hfin. split; [|exact sgd_zero_rate_not_finite].
  destruct (snd (run cfg)) as [| |final] eqn:Hret; [exact I | exact I |].
  apply (test_mlp_invariant
           (fun st => params st = first_params cfg
                      /\ Forall (fun r => e_params r = first_params cfg)
                                (history st)) cfg final);
    [| |exact Hret].
  - rewrite initial_state_params.
    destruct (initial_state_fresh _ RandomState init_params cfg)
      as (_ & _ & _ & ->).
    split; [reflexivity | constructor].
  - intros cost st [Hp Hh].
    destruct (one_epoch_state _ rk_interval n_train n_valid grad errors
                (fixed cfg cost) st) as (_ & _ & -> & -> & _).
    assert (Hnew : e_params (fst (epoch_of (fixed cfg cost) st))
                   = first_params cfg).
    { rewrite epoch_zero_rate; [exact Hp | exact Hlr |].
      rewrite Hp. exact Hfin. }
    split; [exact Hnew|]. apply Forall_app. split; [exact Hh|].
    constructor; [exact Hnew | constructor].
Qed.

End FiniteGradients.

(** *** The epochs of a run *)

Lemma test_mlp_final (cfg : config) (final : loop_state Rng) :
  snd (run cfg) = Return final ->
  batch_size cfg <> 0%Z
  /\ exists calls cost,
       select_cost cfg = Cost calls cost
       /\ final = loop (fixed cfg cost) (start cfg).
Proof.
  intros Hret.
  destruct (Z.eq_dec (batch_size cfg) 0) as [Hz|Hnz].
  - rewrite (test_mlp_zero_batch _ RandomState rk_interval n_train n_valid
               init_params grad errors default_timer cfg Hz) in Hret.
    discriminate.
  - split; [exact Hnz|].
    destruct (select_cost cfg) as [calls cost|status] eqn:Hsel.
    + destruct (test_mlp_return _ RandomState rk_interval n_train n_valid
                  init_params grad errors default_timer cfg calls cost
                  Hnz Hsel) as (Hrun & _).
      rewrite Hrun in Hret. injection Hret as <-.
      exists calls, cost. split; reflexivity.
    + rewrite (test_mlp_exit _ RandomState rk_interval n_train n_valid
                 init_params grad errors default_timer cfg status Hnz Hsel)
        in Hret.
      discriminate.
Qed.

(** X10. [test_mlp] does not check [n_epochs]: with [n_epochs <= 0] the loop
    body never runs and the call returns the start state (no epoch, best
    validation error [inf] at epoch 0, the initial parameters).  Otherwise
    the epochs it runs are numbered 1, 2, ..., [n_epochs] in order and the
    counter ends at [n_epochs]. *)
Theorem epochs_are_numbered_from_one (cfg : config) :
  match snd (run cfg) with
  | Return final =>
      epoch final = Z.of_nat (Z.to_nat (n_epochs cfg))
      /\ map e_epoch (history final)
         = map Z.of_nat (seq 1 (Z.to_nat (n_epochs cfg)))
      /\ ((n_epochs cfg <= 0)%Z ->
          final = start cfg
          /\ history final = []
          /\ best_validation_loss final = Inf false
          /\ best_epoch final = 0%Z
          /\ params final = first_params cfg)
  | _ => True
  end.
Proof.
  destruct (snd (run cfg)) as [| |final] eqn:Hret; [exact I | exact I |].
  assert (Hinv : epoch final = Z.of_nat (length (history final))
                 /\ map e_epoch (history final)
                    = map Z.of_nat (seq 1 (length (history final)))).
  { apply (test_mlp_invariant
             (fun st => epoch st = Z.of_nat (length (history st))
                        /\ map e_epoch (history st)
                           = map Z.of_nat (seq 1 (length (history st))))
             cfg final); [| |exact Hret].
    - destruct (initial_state_fresh _ RandomState init_params cfg)
        as (-> & _ & _ & ->).
      split; reflexivity.
    - intros cost st [He Hh].
      destruct (train_epoch_record _ rk_interval n_train n_valid grad errors
                  (fixed cfg cost) st) as (Her & _).
      destruct (one_epoch_state _ rk_interval n_train n_valid grad errors
                  (fixed cfg cost) st) as (-> & _ & _ & -> & _).
      cbv zeta in Her. rewrite length_app. cbn [length].
      split; [lia|].
      rewrite map_app. cbn [map]. rewrite Hh, Her, He.
      replace (length (history st) + 1) with (S (length (history st)))
        by lia.
      rewrite seq_S, map_app. cbn [map]. f_equal. f_equal. lia. }
  destruct Hinv as [He Hh].
  rewrite (test_mlp_history_length _ RandomState rk_interval n_train n_valid
             init_params grad errors default_timer cfg final Hret) in He, Hh.
  split; [exact He|]. split; [exact Hh|].
  intros Hn. destruct (test_mlp_final cfg final Hret)
    as (_ & calls & cost & _ & Hfinal).
  assert (Hstart : final = start cfg).
  { rewrite Hfinal. unfold while_loop.
    destruct (initial_state_fresh _ RandomState init_params cfg)
      as (-> & _).
    replace (Z.to_nat (s_n_epochs (fixed cfg cost) - 0)) with 0
      by (unfold setup_of; simpl; lia).
    reflexivity. }
  rewrite Hstart.
  destruct (initial_state_fresh _ RandomState init_params cfg)
    as (_ & Hb & Hbe & Hh0).
  repeat split; try assumption. apply initial_state_params.
Qed.

(** *** Batches larger than the data *)

Lemma no_batch (n : nat) (bs : Z) :
  (Z.of_nat n < bs \/ bs < 0)%Z -> xrange (Z.of_nat n / bs) = [].
Proof.
  intros H. unfold xrange.
  replace (Z.to_nat (Z.of_nat n / bs)) with 0; [reflexivity|].
  destruct H as [H|H].
  - rewrite Z.div_small by lia. reflexivity.
  - pose proof (Z.div_mod (Z.of_nat n) bs ltac:(lia)).
    pose proof (Z.mod_neg_bound (Z.of_nat n) bs H). nia.
Qed.

Lemma np_mean_empty : np_mean [] = NaN.
Proof. unfold np_mean, of_int. simpl. rewrite Rzero_true; reflexivity. Qed.

(** X11. When the batch size exceeds the size of the training set, or is
    negative, the batch count is not positive and no epoch trains on
    anything: every epoch has an empty list of minibatches and the parameters
    stay the ones [MLP(...)] created, through the whole run. *)
Theorem oversized_batch_trains_nothing (cfg : config) :
  (Z.of_nat n_train < batch_size cfg \/ batch_size cfg < 0)%Z ->
  match snd (run cfg) with
  | Return final =>
      params final = first_params cfg
      /\ Forall (fun r => e_train_rows r = []
                          /\ e_params r = first_params cfg)
                (history final)
  | _ => True
  end.
Proof.
  intros Hbs.
  destruct (snd (run cfg)) as [| |final] eqn:Hret; [exact I | exact I |].
  apply (test_mlp_invariant
           (fun st => params st = first_params cfg
                      /\ Forall (fun r => e_train_rows r = []
                                          /\ e_params r = first_params cfg)
                                (history st)) cfg final);
    [| |exact Hret].
  - rewrite initial_state_params.
    destruct (initial_state_fresh _ RandomState init_params cfg)
      as (_ & _ & _ & ->).
    split; [reflexivity | constructor].
  - intros cost st [Hp Hh].
    destruct (train_epoch_record _ rk_interval n_train n_valid grad errors
                (fixed cfg cost) st) as (_ & _ & _ & Htr & _).
    pose proof (train_epoch_params (fixed cfg cost) st) as Hpar.
    destruct (one_epoch_state _ rk_interval n_train n_valid grad errors
                (fixed cfg cost) st) as (_ & _ & -> & -> & _).
    cbv zeta in Htr, Hpar.
    cbn [setup_of n_train_batches] in Htr. rewrite (no_batch _ _ Hbs) in Htr.
    cbn [map] in Htr. rewrite Htr in Hpar. cbn [fold_left] in Hpar.
    rewrite Hp in Hpar.
    split; [exact Hpar|]. apply Forall_app. split; [exact Hh|].
    constructor; [split; assumption | constructor].
Qed.

(** X12. When the batch size exceeds the size of the validation set, or is
    negative, no validation batch is evaluated: the validation error of every
    epoch is the mean of an empty list, a NaN, which is never below the
    recorded best, so the call ends with the best validation error [inf] at
    epoch 0. *)
Theorem oversized_batch_validates_nothing (cfg : config) :
  (Z.of_nat n_valid < batch_size cfg \/ batch_size cfg < 0)%Z ->
  match snd (run cfg) with
  | Return final =>
      best_validation_loss final = Inf false
      /\ best_epoch final = 0%Z
      /\ Forall (fun r => e_valid_rows r = [] /\ e_validation_loss r = NaN)
                (history final)
  | _ => True
  end.
Proof.
  intros Hbs.
  destruct (snd (run cfg)) as [| |final] eqn:Hret; [exact I | exact I |].
  apply (test_mlp_invariant
           (fun st => best_validation_loss st = Inf false
                      /\ best_epoch st = 0%Z
                      /\ Forall (fun r => e_valid_rows r = []
                                          /\ e_validation_loss r = NaN)
                                (history st)) cfg final);
    [| |exact Hret].
  - destruct (initial_state_fresh _ RandomState init_params cfg)
      as (_ & -> & -> & ->).
    repeat split. constructor.
  - intros cost st (Hb & Hbe & Hh).
    destruct (train_epoch_record _ rk_interval n_train n_valid grad errors
                (fixed cfg cost) st) as (_ & _ & _ & _ & Hva & Hloss).
    destruct (one_epoch_state _ rk_interval n_train n_valid grad errors
                (fixed cfg cost) st) as (_ & _ & _ & -> & Hbest).
    cbv zeta in Hva, Hloss, Hbest.
    cbn [setup_of n_valid_batches] in Hva. rewrite (no_batch _ _ Hbs) in Hva.
    cbn [map] in Hva. rewrite Hva in Hloss. cbn [map] in Hloss.
    rewrite np_mean_empty in Hloss. rewrite Hloss in Hbest.
    cbn [flt] in Hbest. injection Hbest as -> ->.
    split; [exact Hb|]. split; [exact Hbe|].
    apply Forall_app. split; [exact Hh|].
    constructor; [split; assumption | constructor].
Qed.

(** *** The validation error is an error rate *)

Lemma fold_fadd_unit (l : list float) (a : R) :
  Forall (fun x => exists e, x = Fin e /\ (0 <= e <= 1)%R) l ->
  exists s, fold_left fadd l (Fin a) = Fin (a + s)
            /\ (0 <= s <= INR (length l))%R.
Proof.
  revert a. induction l as [|x l IH]; intros a Hl.
  - exists 0%R. simpl. split; [f_equal; ring | lra].
  - inversion Hl as [|? ? (e & -> & He) Hl']; subst.
    destruct (IH (a + e)%R Hl') as (s & Hs & Hb).
    exists (e + s)%R. cbn [fold_left fadd]. rewrite Hs. split.
    + f_equal. ring.
    + change (length (Fin e :: l)) with (S (length l)).
      rewrite S_INR. lra.
Qed.

Lemma np_mean_unit (l : list float) :
  l <> [] ->
  Forall (fun x => exists e, x = Fin e /\ (0 <= e <= 1)%R) l ->
  exists m, np_mean l = Fin m /\ (0 <= m <= 1)%R.
Proof.
  intros Hne Hl. destruct (fold_fadd_unit l 0 Hl) as (s & Hs & Hb).
  assert (Hpos : (0 < INR (length l))%R).
  { apply lt_0_INR. destruct l; [contradiction | simpl; lia]. }
  exists ((0 + s) / INR (length l))%R. split.
  - unfold np_mean, of_int. rewrite Hs, <- INR_IZR_INZ.
    apply fdiv_fin. lra.
  - split.
    + apply Rmult_le_pos; [lra|]. apply Rlt_le, Rinv_0_lt_compat, Hpos.
    + apply (Rmult_le_reg_r (INR (length l))); [exact Hpos|].
      unfold Rdiv. rewrite Rmult_assoc, Rinv_l by lra. lra.
Qed.

Section ErrorRates.

Hypothesis errors_unit :
  forall rows ps, exists e, errors rows ps = Fin e /\ (0 <= e <= 1)%R.

Lemma epoch_loss_unit (cfg : config) (cost : cost_expr)
    (st : loop_state Rng) :
  (0 < batch_size cfg <= Z.of_nat n_valid)%Z ->
  exists m, e_validation_loss (fst (epoch_of (fixed cfg cost) st)) = Fin m
            /\ (0 <= m <= 1)%R.
Proof.
  intros Hbs.
  destruct (train_epoch_record _ rk_interval n_train n_valid grad errors
              (fixed cfg cost) st) as (_ & _ & _ & _ & Hva & Hloss).
  cbv zeta in Hva, Hloss. rewrite Hloss. apply np_mean_unit.
  - rewrite Hva. cbn [setup_of n_valid_batches s_batch_size].
    intros Hnil. apply (f_equal (@length _)) in Hnil.
    rewrite !length_map in Hnil. unfold xrange in Hnil.
    rewrite length_map, length_seq in Hnil. simpl in Hnil.
    pose proof (Z.div_le_lower_bound (Z.of_nat n_valid) (batch_size cfg) 1
                  ltac:(lia) ltac:(lia)).
    lia.
  - apply Forall_forall. intros x Hx. apply in_map_iff in Hx.
    destruct Hx as (rows & <- & _). apply errors_unit.
Qed.

(** X13. When the classifier's error on a validation batch is a rate between
    0 and 1 and the validation set holds at least one batch, the validation
    error of every epoch is a finite number between 0 and 1; and a call that
    runs at least one epoch ends with a best validation error between 0 and
    1, which is the validation error of the epoch it records as best. *)
Theorem validation_error_is_a_rate (cfg : config) :
  (0 < batch_size cfg <= Z.of_nat n_valid)%Z ->
  match snd (run cfg) with
  | Return final =>
      Forall (fun r => exists m, e_validation_loss r = Fin m
                                 /\ (0 <= m <= 1)%R)
             (history final)
      /\ ((0 < n_epochs cfg)%Z ->
          (exists m, best_validation_loss final = Fin m /\ (0 <= m <= 1)%R)
          /\ exists r, In r (history final)
                       /\ e_epoch r = best_epoch final
                       /\ e_validation_loss r = best_validation_loss final)
  | _ => True
  end.
Proof.
  intros Hbs.
  destruct (snd (run cfg)) as [| |final] eqn:Hret; [exact I | exact I |].
  assert (Hall : Forall (fun r => exists m, e_validation_loss r = Fin m
                                            /\ (0 <= m <= 1)%R)
                        (history final)).
  { apply (test_mlp_history_Forall _ RandomState rk_interval n_train n_valid
             init_params grad errors default_timer _ cfg final);
      [|exact Hret].
    intros cost st. apply epoch_loss_unit. exact Hbs. }
  split; [exact Hall|]. intros Hn.
  assert (Hfsb : first_seen_best final).
  { apply (test_mlp_invariant first_seen_best cfg final); [| |exact Hret].
    - apply start_first_seen_best.
    - intros cost st. apply step_first_seen_best. }
  pose proof (test_mlp_history_length _ RandomState rk_interval n_train
                n_valid init_params grad errors default_timer cfg final Hret)
    as Hlen.
  destruct Hfsb as (Hun & _ & _ & Hrec).
  destruct Hrec as [[_ Hinf]|(r & Hr & Hre & Hrl)].
  - exfalso. destruct (history final) as [|r h] eqn:Hh;
      [simpl in Hlen; lia|].
    unfold unbeaten in Hun. rewrite Hh in Hun.
    inversion Hun as [|? ? Hr _]; subst.
    inversion Hall as [|? ? (m & Hm & _) _]; subst.
    rewrite Hm, Hinf in Hr. discriminate.
  - split.
    + rewrite Forall_forall in Hall. destruct (Hall r Hr) as (m & Hm & Hb).
      exists m. rewrite <- Hrl. split; assumption.
    + exists r. repeat split; assumption.
Qed.

End ErrorRates.

(** *** The rows of the batches *)

Section BoundedDrawsMore.

Hypothesis rk_interval_le : forall m s, fst (rk_interval m s) <= m.

(** X14. With a positive batch size, the rows that an epoch takes from the
    training set are indices inside the set and no row is taken twice in the
    epoch; the rows of the validation batches are indices inside the
    validation set, none taken twice. *)
Theorem batch_rows_are_valid_and_distinct (cfg : config) :
  (0 < batch_size cfg)%Z ->
  match snd (run cfg) with
  | Return final =>
      Forall (fun r =>
                NoDup (concat (e_train_rows r))
                /\ (forall x, In x (concat (e_train_rows r)) -> x < n_train)
                /\ NoDup (concat (e_valid_rows r))
                /\ (forall x, In x (concat (e_valid_rows r)) -> x < n_valid))
             (history final)
  | _ => True
  end.
Proof.
  intros Hbs.
  destruct (snd (run cfg)) as [| |final] eqn:Hret; [exact I | exact I |].
  apply (test_mlp_history_Forall _ RandomState rk_interval n_train n_valid
           init_params grad errors default_timer _ cfg final);
    [|exact Hret].
  intros cost st.
  pose proof (epoch_drops_remainder _ rk_interval n_train n_valid grad errors
                rk_interval_le cfg cost st Hbs) as Hd.
  pose proof (epoch_bijection _ rk_interval n_train n_valid grad errors
                rk_interval_le (fixed cfg cost) st) as Hb.
  set (r := fst (epoch_of (fixed cfg cost) st)) in *.
  destruct Hd as ((_ & _ & Hcat & _) & (_ & Hvcat & Hrem & _) & _).
  destruct Hb as (_ & _ & Hnd & Hin & _).
  cbv zeta in Hcat, Hvcat, Hrem. rewrite Hcat, Hvcat.
  split; [|split; [|split]].
  - rewrite <- (firstn_skipn
                  (Z.to_nat (Z.of_nat n_train / batch_size cfg
                             * batch_size cfg)) (e_index_perm r)) in Hnd.
    apply NoDup_app_remove_r in Hnd. exact Hnd.
  - intros x Hx. apply Hin.
    rewrite <- (firstn_skipn
                  (Z.to_nat (Z.of_nat n_train / batch_size cfg
                             * batch_size cfg)) (e_index_perm r)).
    apply in_or_app. left. exact Hx.
  - apply seq_NoDup.
  - intros x Hx. apply in_seq in Hx.
    pose proof (Z.mul_div_le (Z.of_nat n_valid) (batch_size cfg) Hbs).
    lia.
Qed.

End BoundedDrawsMore.

(** *** The number of updates *)

Lemma list_sum_constant (h : list epoch_record) (c : nat) :
  Forall (fun r => length (e_train_rows r) = c) h ->
  list_sum (map (fun r => length (e_train_rows r)) h) = length h * c.
Proof.
  induction h as [|r h IH]; intros H; [reflexivity|].
  inversion H as [|? ? Hr Hh]; subst. simpl. rewrite IH by assumption. lia.
Qed.

(** X15. A call of [test_mlp] that returns has called [train_model]
    [n_epochs * n_train_batches] times, where the batch count is the floor
    quotient of the training set size by the batch size, and both factors
    count as 0 when they are negative. *)
Theorem number_of_updates (cfg : config) :
  match snd (run cfg) with
  | Return final =>
      updates_in (history final)
      = Z.to_nat (n_epochs cfg)
        * Z.to_nat (Z.of_nat n_train / batch_size cfg)
  | _ => True
  end.
Proof.
  destruct (snd (run cfg)) as [| |final] eqn:Hret; [exact I | exact I |].
  unfold updates_in.
  rewrite (list_sum_constant _
             (Z.to_nat (Z.of_nat n_train / batch_size cfg))).
  - rewrite (test_mlp_history_length _ RandomState rk_interval n_train
               n_valid init_params grad errors default_timer cfg final Hret).
    reflexivity.
  - apply (test_mlp_history_Forall _ RandomState rk_interval n_train n_valid
             init_params grad errors default_timer _ cfg final);
      [|exact Hret].
    intros cost st.
    destruct (train_epoch_record _ rk_interval n_train n_valid grad errors
                (fixed cfg cost) st) as (_ & _ & _ & Htr & _).
    cbv zeta in Htr. rewrite Htr. unfold xrange.
    rewrite !length_map, length_seq. reflexivity.
Qed.

(** *** The best epoch of the summary *)

Lemma final_epoch (cfg : config) (final : loop_state Rng) :
  snd (run cfg) = Return final ->
  epoch final = Z.of_nat (Z.to_nat (n_epochs cfg)).
Proof.
  intros Hret.
  destruct (test_mlp_final cfg final Hret) as (_ & calls & cost & _ & ->).
  unfold while_loop. rewrite run_epochs_epoch.
  destruct (initial_state_fresh _ RandomState init_params cfg) as (-> & _).
  unfold setup_of. simpl. f_equal. f_equal. lia.
Qed.

Lemma start_improved_once (cfg : config) : improved_once (start cfg).
Proof.
  unfold improved_once. split; [apply start_first_seen_best|].
  destruct (initial_state_fresh _ RandomState init_params cfg)
    as (-> & -> & -> & ->).
  split; [apply not_above_refl|]. split; [lia|]. split; [lia|].
  split; [constructor|]. intros H. contradiction.
Qed.

Lemma step_improved_once (su : setup) (st : loop_state Rng) :
  improved_once st -> improved_once (body su st).
Proof.
  intros (Hfsb & Hna & Hbe0 & He0 & Hep & Himp). unfold improved_once.
  split; [apply step_first_seen_best; exact Hfsb|].
  pose proof (step_not_above _ rk_interval n_train n_valid grad errors su st)
    as Hstep.
  split; [exact (not_above_trans _ _ _ Hstep Hna)|].
  destruct (train_epoch_record _ rk_interval n_train n_valid grad errors
              su st) as (Her & _).
  destruct (one_epoch_state _ rk_interval n_train n_valid grad errors su st)
    as (He & _ & _ & Hh & Hbest).
  cbv zeta in Her, Hh, Hbest. rewrite He, Hh.
  assert (Hep' : Forall (fun r => (1 <= e_epoch r)%Z)
                        (history st ++ [fst (epoch_of su st)])).
  { apply Forall_app. split; [exact Hep|].
    constructor; [rewrite Her; lia | constructor]. }
  destruct (flt _ (best_validation_loss st)) eqn:E;
    injection Hbest as Hb Hbe; rewrite Hb, Hbe.
  - split; [lia|]. split; [lia|]. split; [exact Hep'|]. intros _.
    destruct Hna as [Hinf|Hlt].
    + rewrite <- Hinf. exact E.
    + exact (flt_trans _ _ _ E Hlt).
  - split; [exact Hbe0|]. split; [lia|]. split; [exact Hep'|]. exact Himp.
Qed.

(** X16. The best epoch that the summary of [test_mlp] reports lies between
    0 and the number of epochs run.  It is 0 exactly when the best validation
    error is still [inf], and then no epoch had a validation error below
    [inf] (for instance, all were NaN); otherwise it is the number of an
    epoch that was run, whose validation error is the reported best and is
    below [inf]. *)
Theorem best_epoch_of_the_summary (cfg : config) :
  match snd (run cfg) with
  | Return final =>
      (0 <= best_epoch final <= Z.of_nat (Z.to_nat (n_epochs cfg)))%Z
      /\ (best_epoch final = 0%Z <-> best_validation_loss final = Inf false)
      /\ (best_epoch final = 0%Z ->
          Forall (fun r => flt (e_validation_loss r) (Inf false) = false)
                 (history final))
      /\ (best_epoch final <> 0%Z ->
          exists r, In r (history final)
                    /\ e_epoch r = best_epoch final
                    /\ e_validation_loss r = best_validation_loss final
                    /\ flt (best_validation_loss final) (Inf false) = true)
  | _ => True
  end.
Proof.
  destruct (snd (run cfg)) as [| |final] eqn:Hret; [exact I | exact I |].
  assert (Hinv : improved_once final).
  { apply (test_mlp_invariant improved_once cfg final); [| |exact Hret].
    - apply start_improved_once.
    - intros cost st. apply step_improved_once. }
  pose proof (final_epoch cfg final Hret) as Hfin.
  destruct Hinv as ((Hun & Hle & _ & Hrec) & _ & Hbe0 & _ & Hep & Himp).
  assert (Hzero : best_epoch final = 0%Z ->
                  best_validation_loss final = Inf false).
  { intros Hz. destruct Hrec as [[_ Hinf]|(r & Hr & Hre & _)];
      [exact Hinf|].
    rewrite Forall_forall in Hep. specialize (Hep r Hr). lia. }
  split; [lia|]. split; [|split].
  - split; [exact Hzero|]. intros Hinf.
    destruct (Z.eq_dec (best_epoch final) 0) as [Hz|Hnz]; [exact Hz|].
    specialize (Himp Hnz). rewrite Hinf in Himp. discriminate.
  - intros Hz. unfold unbeaten in Hun. rewrite (Hzero Hz) in Hun. exact Hun.
  - intros Hnz. destruct Hrec as [[Hz _]|(r & Hr & Hre & Hrl)];
      [contradiction|].
    exists r. repeat split; try assumption. apply Himp. exact Hnz.
Qed.

End TrainingMore.

(** ** The further loop theorems on the toy back end *)

Lemma shaped_grad_shape (cost : cost_expr) (rows : list nat)
    (ps : list param) (k : nat) :
  length (shaped_grad cost rows ps k) = length (nth k ps []).
Proof. unfold shaped_grad. apply length_map. Qed.

Lemma shaped_grad_finite (cost : cost_expr) (rows : list nat)
    (ps : list param) (k : nat) :
  Forall (fun x => is_fin x = true) (shaped_grad cost rows ps k).
Proof.
  unfold shaped_grad. apply Forall_forall. intros x Hx.
  apply in_map_iff in Hx. destruct Hx as (y & <- & _). reflexivity.
Qed.

Lemma toy_errors_unit (rows : list nat) (ps : list param) :
  exists e, toy_errors rows ps = Fin e /\ (0 <= e <= 1)%R.
Proof. exists 1%R. split; [reflexivity | lra]. Qed.

Lemma parameters_keep_their_shape_witness :
  match snd (shaped_test_mlp config_batch_one) with
  | Return final =>
      same_shape (params final) [[Fin 0]]
      /\ length (params final) = 1
      /\ Forall (fun r => same_shape (e_params r) [[Fin 0]]) (history final)
  | _ => True
  end.
Proof.
  apply (parameters_keep_their_shape nat Z.to_nat counter_interval 5 3
           toy_init shaped_grad toy_errors toy_timer
           (fun cost rows ps k _ => shaped_grad_shape cost rows ps k)
           config_batch_one).
Defined.

Lemma zero_learning_rate_freezes_parameters_witness :
  match snd (shaped_test_mlp config_zero_rate) with
  | Return final =>
      params final = [[Fin 0]]
      /\ Forall (fun r => e_params r = [[Fin 0]]) (history final)
  | _ => True
  end.
Proof.
  apply (zero_learning_rate_freezes_parameters nat Z.to_nat counter_interval
           5 3 toy_init shaped_grad toy_errors toy_timer
           (fun cost rows ps k _ _ =>
              conj (shaped_grad_finite cost rows ps k)
                   (shaped_grad_shape cost rows ps k))
           config_zero_rate).
  - reflexivity.
  - repeat constructor.
Defined.

Lemma oversized_batch_trains_nothing_witness :
  match snd (toy_test_mlp default_config) with
  | Return final =>
      params final = [[Fin 0]]
      /\ Forall (fun r => e_train_rows r = [] /\ e_params r = [[Fin 0]])
                (history final)
  | _ => True
  end.
Proof.
  apply (oversized_batch_trains_nothing nat Z.to_nat counter_interval 5 3
           toy_init toy_grad toy_errors toy_timer default_config).
  left. simpl. lia.
Defined.

Lemma oversized_batch_validates_nothing_witness :
  match snd (toy_test_mlp default_config) with
  | Return final =>
      best_validation_loss final = Inf false
      /\ best_epoch final = 0%Z
      /\ Forall (fun r => e_valid_rows r = [] /\ e_validation_loss r = NaN)
                (history final)
  | _ => True
  end.
Proof.
  apply (oversized_batch_validates_nothing nat Z.to_nat counter_interval 5 3
           toy_init toy_grad toy_errors toy_timer default_config).
  left. simpl. lia.
Defined.

Lemma validation_error_is_a_rate_witness :
  match snd (toy_test_mlp config_batch_one) with
  | Return final =>
      Forall (fun r => exists m, e_validation_loss r = Fin m
                                 /\ (0 <= m <= 1)%R)
             (history final)
      /\ ((0 < 1)%Z ->
          (exists m, best_validation_loss final = Fin m /\ (0 <= m <= 1)%R)
          /\ exists r, In r (history final)
                       /\ e_epoch r = best_epoch final
                       /\ e_validation_loss r = best_validation_loss final)
  | _ => True
  end.
Proof.
  apply (validation_error_is_a_rate nat Z.to_nat counter_interval 5 3
           toy_init toy_grad toy_errors toy_timer toy_errors_unit
           config_batch_one).
  simpl. lia.
Defined.

Lemma batch_rows_are_valid_and_distinct_witness :
  match snd (toy_test_mlp config_batch_one) with
  | Return final =>
      Forall (fun r =>
                NoDup (concat (e_train_rows r))
                /\ (forall x, In x (concat (e_train_rows r)) -> x < 5)
                /\ NoDup (concat (e_valid_rows r))
                /\ (forall x, In x (concat (e_valid_rows r)) -> x < 3))
             (history final)
  | _ => True
  end.
Proof.
  apply (batch_rows_are_valid_and_distinct nat Z.to_nat counter_interval 5 3
           toy_init toy_grad toy_errors toy_timer counter_interval_le
           config_batch_one).
  simpl. lia.
Defined.

(** ** An activation that is not finite *)

Lemma fsum_inf (n k : nat) (f : nat -> float) (s : bool) :
  k < n -> f k = Inf s -> fsum n f = Inf s \/ fsum n f = NaN.
Proof.
  induction n as [|n IH]; intros Hk Hf; [lia|]. simpl.
  destruct (Nat.eq_dec k n) as [->|Hne].
  - rewrite Hf. destruct (fsum n f) as [x|t|]; simpl; auto.
    destruct t, s; simpl; auto.
  - destruct (IH ltac:(lia) Hf) as [-> | ->]; [|right; reflexivity].
    destruct (f n) as [y|t|]; simpl; auto.
    destruct t, s; simpl; auto.
Qed.

Section NotFinite.

Variable M : matrix.
Variables i j : nat.
Hypothesis i_in : i < nrows M.
Hypothesis j_in : j < ncols M.
Hypothesis not_finite : is_fin (entry M i j) = false.

Lemma not_finite_centered : entry (centered_of M) i j = NaN.
Proof.
  change (entry (centered_of M) i j)
    with (fsub (entry M i j)
               (fdiv (fsum (nrows M) (fun i => entry M i j))
                     (of_int (shape0 M)))).
  destruct (entry M i j) as [x|s|] eqn:E; [discriminate| |reflexivity].
  assert (Hpos : (0 < IZR (shape0 M))%R).
  { unfold shape0. apply IZR_lt. lia. }
  destruct (fsum_inf (nrows M) i (fun i => entry M i j) s i_in E)
    as [-> | ->].
  - unfold of_int. simpl. rewrite Rneg_false by lra.
    rewrite xorb_false_r. destruct s; reflexivity.
  - reflexivity.
Qed.

Lemma not_finite_covariance : entry (covariance_of M) j j = NaN.
Proof.
  rewrite covariance_entry.
  rewrite (fsum_nan (nrows M) i); [apply fmul_nan_r | exact i_in |].
  rewrite not_finite_centered. reflexivity.
Qed.

Lemma not_finite_correlation : entry (correlation_of M) j j = NaN.
Proof.
  rewrite correlation_entry, not_finite_covariance, fmul_nan_r.
  reflexivity.
Qed.

Lemma diagonal_nan_penalty (C : matrix) :
  nrows C = ncols M -> ncols C = ncols M -> entry C j j = NaN ->
  off_diagonal_sum (msqr C) = NaN.
Proof.
  intros Hr Hc Hjj. rewrite off_diagonal_sum_sqr, Hr, Hc.
  rewrite (fsum_nan (ncols M) j); [reflexivity | exact j_in |].
  apply (fsum_nan (ncols M) j); [exact j_in|]. rewrite Hjj. reflexivity.
Qed.

End NotFinite.

(** X17. Neither penalty method tests its input: when some activation of the
    batch is an infinity or a NaN, both [off_diag_cov_sqr] and
    [off_diag_cor_sqr] are NaN. *)
Theorem non_finite_activation_gives_nan_penalties (self : MLP) (i j : nat) :
  i < nrows (hiddenLayer_output self) ->
  j < ncols (hiddenLayer_output self) ->
  is_fin (entry (hiddenLayer_output self) i j) = false ->
  off_diag_cov_sqr (set_covariance self) = Some NaN
  /\ off_diag_cor_sqr (set_correlation self) = Some NaN.
Proof.
  intros Hi Hj Hnf. split.
  - rewrite set_covariance_result. f_equal.
    apply (diagonal_nan_penalty (hiddenLayer_output self) j Hj);
      [reflexivity | reflexivity |].
    apply not_finite_covariance with (i := i); assumption.
  - rewrite set_correlation_result. f_equal.
    apply (diagonal_nan_penalty (hiddenLayer_output self) j Hj);
      [reflexivity | reflexivity |].
    apply not_finite_correlation with (i := i); assumption.
Qed.

Lemma non_finite_activation_gives_nan_penalties_witness :
  off_diag_cov_sqr (set_covariance (new_MLP batch_overflowed)) = Some NaN
  /\ off_diag_cor_sqr (set_correlation (new_MLP batch_overflowed)) = Some NaN.
Proof.
  apply (non_finite_activation_gives_nan_penalties
           (new_MLP batch_overflowed) 0 1).
  - simpl. lia.
  - simpl. lia.
  - reflexivity.
Defined.

(** * A hidden unit of zero variance *)

(** ** The division by a zero variance *)

Section ZeroVariance.

Variable M : matrix.
Variable j : nat.
Hypothesis j_in : j < ncols M.
Hypothesis centered_j : zero_centered M j.

Lemma zero_centered_squares :
  fsum (nrows M) (fun i => fsqr (entry (centered_of M) i j)) = Fin 0.
Proof.
  rewrite (fsum_ext _ _ (fun _ => Fin 0)).
  - rewrite fsum_fin, Rsum_const. f_equal. lra.
  - intros i Hi. rewrite centered_j by assumption. simpl. f_equal. lra.
Qed.

Lemma zero_centered_inv_std :
  is_fin (vget (inv_std_of M) j) = false
  /\ (1 < nrows M -> vget (inv_std_of M) j = Inf false).
Proof.
  rewrite inv_std_entry, zero_centered_squares. split.
  - apply degenerate_unit.
  - intros Hm. unfold inv_dof, of_int, shape0.
    rewrite minus_IZR, <- INR_IZR_INZ.
    assert (Hge : (2 <= INR (nrows M))%R).
    { replace 2%R with (INR 2) by (simpl; lra). apply le_INR. lia. }
    rewrite fdiv_fin by lra. simpl. rewrite Rzero_true by lra. reflexivity.
Qed.

Lemma zero_centered_correlation : entry (correlation_of M) j j = NaN.
Proof.
  rewrite correlation_entry, covariance_entry, inv_std_entry.
  change (fun i => fmul (entry (centered_of M) i j) (entry (centered_of M) i j))
    with (fun i => fsqr (entry (centered_of M) i j)).
  rewrite zero_centered_squares. apply degenerate_unit.
Qed.

Lemma zero_centered_penalty :
  off_diagonal_sum (msqr (correlation_of M)) = NaN.
Proof.
  apply (diagonal_nan_penalty M j j_in);
    [reflexivity | reflexivity | exact zero_centered_correlation].
Qed.

End ZeroVariance.

Lemma constant_column_zero_centered (M : matrix) (j : nat) (c : R) :
  j < ncols M -> constant_column M j c -> zero_centered M j.
Proof.
  intros Hj Hc i Hi. rewrite (constant_column_centered M j c Hj Hc i Hi).
  f_equal. assert (INR (nrows M) <> 0%R) by (apply not_0_INR; lia).
  field. assumption.
Qed.

(** ** A NaN in the updates *)

Lemma sgd_nth (lr : float) (p g : param) (i : nat) :
  nth_error (sgd lr p g) i
  = match nth_error p i, nth_error g i with
    | Some x, Some y => Some (fsub x (fmul lr y))
    | _, _ => None
    end.
Proof.
  unfold sgd. revert g i. induction p as [|x p IH]; intros g i.
  - destruct i; reflexivity.
  - destruct g as [|y g].
    + destruct i as [|i]; simpl; [reflexivity|].
      destruct (nth_error p i); reflexivity.
    + destruct i as [|i]; simpl; [reflexivity | apply IH].
Qed.

Section NanUpdates.

Variable Rng : Type.
Variable RandomState : Z -> Rng.
Variable rk_interval : nat -> Rng -> nat * Rng.
Variable n_train : nat.
Variable n_valid : nat.
Variable init_params : Z -> Rng -> list param * Rng.
Variable grad : cost_expr -> list nat -> list param -> nat -> param.
Variable errors : list nat -> list param -> float.
Variable default_timer : nat -> float.

Local Abbreviation epoch_of := (train_epoch Rng rk_interval n_train n_valid grad errors).
Local Abbreviation body := (one_epoch Rng rk_interval n_train n_valid grad errors).
Local Abbreviation iterate := (run_epochs Rng rk_interval n_train n_valid grad errors).
Local Abbreviation loop := (while_loop Rng rk_interval n_train n_valid grad errors).
Local Abbreviation start := (initial_state Rng RandomState init_params).
Local Abbreviation fixed := (setup_of n_train n_valid).
Local Abbreviation run :=
  (test_mlp Rng RandomState rk_interval n_train n_valid init_params grad errors
            default_timer).

Lemma train_model_nth_from (cost : cost_expr) (lr : float) (rows : list nat)
    (all pre ps : list param) (k : nat) :
  nth_error
    (map (fun pg => sgd lr (fst pg) (snd pg))
         (combine ps (map (grad cost rows all) (seq (length pre) (length ps)))))
    k
  = option_map (fun p => sgd lr p (grad cost rows all (length pre + k)))
               (nth_error ps k).
Proof.
  revert pre k. induction ps as [|p ps IH]; intros pre k.
  - destruct k; reflexivity.
  - destruct k as [|k].
    + simpl. rewrite Nat.add_0_r. reflexivity.
    + cbn [length seq map combine nth_error].
      specialize (IH (pre ++ [p]) k).
      rewrite length_app in IH. simpl in IH.
      replace (length pre + 1) with (S (length pre)) in IH by lia.
      rewrite IH.
      replace (S (length pre) + k) with (length pre + S k) by lia.
      reflexivity.
Qed.

(** The [k]-th parameter after [train_model] is the [k]-th parameter before,
    less the learning rate times its gradient. *)
Lemma train_model_nth (cost : cost_expr) (lr : float) (rows : list nat)
    (ps : list param) (k : nat) :
  nth_error (train_model grad cost lr rows ps) k
  = option_map (fun p => sgd lr p (grad cost rows ps k)) (nth_error ps k).
Proof. apply (train_model_nth_from cost lr rows ps [] ps k). Qed.

Lemma train_model_nan_gradient (cost : cost_expr) (lr : float)
    (rows : list nat) (ps : list param) (k i : nat) :
  k < length ps -> i < length (nth k ps []) ->
  nth_error (grad cost rows ps k) i = Some NaN ->
  nan_at (train_model grad cost lr rows ps) k i.
Proof.
  intros Hk Hi Hg.
  destruct (nth_error ps k) as [p|] eqn:Hp;
    [|apply nth_error_None in Hp; lia].
  rewrite (nth_error_nth ps k [] Hp) in Hi.
  exists (sgd lr p (grad cost rows ps k)). split.
  - rewrite train_model_nth, Hp. reflexivity.
  - rewrite sgd_nth, Hg.
    destruct (nth_error p i) as [x|] eqn:Hx;
      [|apply nth_error_None in Hx; lia].
    rewrite fmul_nan_r, fsub_nan_r. reflexivity.
Qed.

Section Shaped.

Hypothesis grad_shape :
  forall cost rows ps k,
    k < length ps -> length (grad cost rows ps k) = length (nth k ps []).

Lemma train_model_keeps_nan (cost : cost_expr) (lr : float)
    (rows : list nat) (ps : list param) (k i : nat) :
  nan_at ps k i -> nan_at (train_model grad cost lr rows ps) k i.
Proof.
  intros (p & Hp & Hx).
  exists (sgd lr p (grad cost rows ps k)). split.
  - rewrite train_model_nth, Hp. reflexivity.
  - rewrite sgd_nth, Hx.
    assert (Hk : k < length ps)
      by (apply nth_error_Some; rewrite Hp; discriminate).
    assert (Hi : i < length p)
      by (apply nth_error_Some; rewrite Hx; discriminate).
    assert (Hlen : i < length (grad cost rows ps k)).
    { rewrite (grad_shape cost rows ps k Hk), (nth_error_nth ps k [] Hp).
      exact Hi. }
    destruct (nth_error (grad cost rows ps k) i) as [y|] eqn:Hg;
      [|apply nth_error_None in Hg; lia].
    rewrite fsub_nan_l. reflexivity.
Qed.

Lemma updates_keep_nan (cost : cost_expr) (lr : float)
    (batches : list (list nat)) (ps : list param) (k i : nat) :
  nan_at ps k i ->
  nan_at (fold_left (fun ps rows => train_model grad cost lr rows ps)
                    batches ps) k i.
Proof.
  revert ps. induction batches as [|rows batches IH]; intros ps H.
  - exact H.
  - cbn [fold_left]. apply IH. apply train_model_keeps_nan. exact H.
Qed.

Lemma epoch_keeps_nan (su : setup) (st : loop_state Rng) (k i : nat) :
  nan_at (params st) k i -> nan_at (params (body su st)) k i.
Proof.
  intros H.
  destruct (one_epoch_state Rng rk_interval n_train n_valid grad errors su st)
    as (_ & _ & -> & _).
  rewrite (train_epoch_params Rng rk_interval n_train n_valid grad errors).
  apply updates_keep_nan. exact H.
Qed.

Lemma epochs_keep_nan (su : setup) (n : nat) (st : loop_state Rng)
    (k i : nat) :
  nan_at (params st) k i -> nan_at (params (iterate su n st)) k i.
Proof.
  revert st. induction n as [|n IH]; intros st H; [exact H|].
  cbn [run_epochs]. apply IH. apply epoch_keeps_nan. exact H.
Qed.

(** A minibatch whose gradient has a NaN leaves it in the parameters the
    epoch ends with. *)
Lemma nan_batch_in_epoch (su : setup) (st : loop_state Rng)
    (pre post : list (list nat)) (rows : list nat) (k i : nat) :
  let r := fst (epoch_of su st) in
  let ps := fold_left (fun ps rows =>
                         train_model grad (s_cost su) (s_learning_rate su)
                                     rows ps)
                      pre (params st) in
  e_train_rows r = pre ++ rows :: post ->
  k < length ps -> i < length (nth k ps []) ->
  nth_error (grad (s_cost su) rows ps k) i = Some NaN ->
  nan_at (e_params r) k i.
Proof.
  intros r ps Hrows Hk Hi Hg. unfold r.
  rewrite (train_epoch_params Rng rk_interval n_train n_valid grad errors).
  fold r. rewrite Hrows, fold_left_app. cbn [fold_left].
  apply updates_keep_nan. apply train_model_nan_gradient; assumption.
Qed.


End Shaped.

End NanUpdates.

(** ** The zero-variance unit on the toy back end *)

Lemma nan_grad_shape (cost : cost_expr) (rows : list nat) (ps : list param)
    (k : nat) :
  k < length ps -> length (nan_grad cost rows ps k) = length (nth k ps []).
Proof. intros _. unfold nan_grad. apply length_map. Qed.

Lemma batch_saturated_zero_centered : zero_centered batch_saturated 0.
Proof.
  apply (constant_column_zero_centered batch_saturated 0 1).
  - simpl. lia.
  - intros i _. reflexivity.
Qed.


(** * The penalty methods evaluated on binary64 numbers *)

Section BinaryFloats.

Import PrimFloat.
Local Open Scope float_scope.


(** C3, as stated, fails on the numbers of the program.  On the batch
    [[1, 2^-30], [-1, -2^-30]] the covariance matrix is
    [[2, 2^-29], [2^-29, 2^-59]], every entry exact.  The sum of all its
    squared entries rounds to 4 and so does the sum of its squared diagonal:
    the number [set_covariance] stores is [4 - 4 = 0], while the squared
    off-diagonal entries sum to [2^-57]. *)
Lemma covariance_penalty_rounds_to_zero :
  B64.activation_covariance B64.batch_tiny
  = [[2; 0x1p-29]; [0x1p-29; 0x1p-59]]
  /\ B64.msum (B64.covariance_squared B64.batch_tiny) = 4
  /\ B64.sum (B64.diagonal (B64.covariance_squared B64.batch_tiny)) = 4
  /\ B64.off_diag_cov_sqr B64.batch_tiny = 0
  /\ B64.sum_sq_off_diagonal (B64.activation_covariance B64.batch_tiny)
     = 0x1p-57
  /\ eqb (B64.off_diag_cov_sqr B64.batch_tiny)
         (B64.sum_sq_off_diagonal (B64.activation_covariance B64.batch_tiny))
     = false.
Proof. vm_compute. repeat split; reflexivity. Qed.


End BinaryFloats.
